(** * policy_reporter: the finite-state-machine exercise and the recall-threshold scan

    A shallow embedding of [assigment2/state_machine.py] and
    [assigment1/best_recall_threshold.py].

    Python values are modelled as the code uses them: an [int] is a [Z], a
    [str] is a [string], a [dict] is a [gmap], a [list] is a [list] indexed
    the way Python indexes it (negative indices count from the end, anything
    else out of range raises [IndexError]).  An exception is a value of
    [exn]; a computation that may raise returns a [result].  Code that reads
    or assigns [self.current_state] runs in the monad [M], which threads the
    Python store: the class attribute [current_state] and the heap of
    instance dictionaries. *)

From Stdlib Require Import ZArith QArith String Ascii List Lia.
From stdpp Require Import base option gmap strings list.

Open Scope string_scope.
Open Scope list_scope.
Open Scope Z_scope.

(** ** Exceptions and results *)

Inductive exn : Type :=
  | InvalidAlphabetContent
  | InvalidState
  | InvalidDataException
  | KeyError
  | IndexError
  | ValueError
  | ZeroDivisionError
  | OverflowError.

Inductive result (A : Type) : Type :=
  | Ok (a : A)
  | Raise (e : exn).
Arguments Ok {A} a.
Arguments Raise {A} e.

#[global] Instance result_ret : MRet result := fun A a => Ok a.
#[global] Instance result_bind : MBind result := fun A B k r =>
  match r with
  | Ok a => k a
  | Raise e => Raise e
  end.

(** ** Python containers *)

(** [d[k]] on a dict. *)
Definition dict_getitem `{Countable K} {V} (d : gmap K V) (k : K) : result V :=
  match d !! k with
  | Some v => Ok v
  | None => Raise KeyError
  end.

(** [l[i]] on a list, for an integer [i]. *)
Definition list_getitem {A} (l : list A) (i : Z) : result A :=
  let n := Z.of_nat (length l) in
  let j := if i <? 0 then i + n else i in
  if (j <? 0) || (n <=? j) then Raise IndexError
  else match l !! Z.to_nat j with
       | Some x => Ok x
       | None => Raise IndexError
       end.

(** [functools.reduce(function, iterable, initial)] where [function] may
    raise: the exception leaves the fold at the first element that raises. *)
Fixpoint reduce {A B} (function : A -> B -> result A) (iterable : list B)
    (initial : A) : result A :=
  match iterable with
  | [] => Ok initial
  | x :: rest =>
      match function initial x with
      | Ok a => reduce function rest a
      | Raise e => Raise e
      end
  end.

(** ** The Python store

    [current_state] is a class attribute ([ThreeFiniteStateMachine] sets it
    in its class body).  An instance has its own dictionary: reading
    [self.current_state] finds the instance's entry when there is one and
    the class attribute otherwise; assigning [self.current_state] writes the
    instance's entry and leaves the class attribute alone.  An object is the
    index of its dictionary in [heap]. *)

Record world (S : Type) : Type := World {
  class_current_state : S;
  heap : list (option S)
}.
Arguments World {S} _ _.
Arguments class_current_state {S} _.
Arguments heap {S} _.

Definition M (S A : Type) : Type := world S -> result A * world S.

Definition ret {S A} (a : A) : M S A := fun w => (Ok a, w).
Definition raise {S A} (e : exn) : M S A := fun w => (Raise e, w).
Definition bind {S A B} (m : M S A) (k : A -> M S B) : M S B := fun w =>
  match m w with
  | (Ok a, w') => k a w'
  | (Raise e, w') => (Raise e, w')
  end.
Definition lift {S A} (r : result A) : M S A := fun w => (r, w).

Notation "'do' x <- m ; k" := (bind m (fun x => k))
  (at level 10, x name, m at level 100, k at level 200).
Notation "'do_' m ; k" := (bind m (fun _ => k))
  (at level 10, m at level 100, k at level 200).

(** Calling the class: a new object with an empty instance dictionary. *)
Definition new_object {S} : M S nat := fun w =>
  (Ok (length (heap w)),
   World (class_current_state w) (heap w ++ [None])).

(** [self.current_state] *)
Definition get_current_state {S} (self : nat) : M S S := fun w =>
  (Ok (default (class_current_state w) (mjoin (heap w !! self))), w).

(** [self.current_state = v] *)
Definition set_current_state {S} (self : nat) (v : S) : M S unit := fun w =>
  (Ok tt, World (class_current_state w) (<[self := Some v]> (heap w))).

(** ** The generic engine: class [FiniteStateMachine]

    The abstract methods and the table a subclass provides
    ([transition] reads [self.transition_matrix], the attribute the subclass
    sets).  [truthy] is Python's truth value of a state, which
    [sequence_transition] tests. *)

Class FiniteStateMachine (L S : Type) `{Countable S} : Type := {
  transition_matrix : gmap S (list S);
  letter_transition_index : L -> result Z;
  state_check : S -> result S;
  initial_state : S;
  truthy : S -> bool
}.

(** The bodies of the abstract methods, which a subclass reaches through
    [super()]. *)
Definition super_letter_transition_index {L} (letter : L) : result Z :=
  Raise InvalidAlphabetContent.
Definition super_state_check {S} (state : S) : result S :=
  Raise InvalidState.

Section Engine.
Context {L S : Type} `{FSM : FiniteStateMachine L S}.

(** [self.transition_matrix[self.state_check(state)][self.letter_transition_index(letter)]]:
    the state check and the row lookup come before the letter index. *)
Definition transition (state : S) (letter : L) : result S :=
  st ← state_check state;
  row ← dict_getitem transition_matrix st;
  idx ← letter_transition_index letter;
  list_getitem row idx.

(** [not initial_state], for the optional argument. *)
Definition not_initial_state (initial_state : option S) : bool :=
  match initial_state with
  | None => true
  | Some s => negb (truthy s)
  end.

Definition sequence_transition (self : nat) (alphabet_sequence : list L)
    (initial_state : option S) : M S S :=
  do initial_state <-
    (if not_initial_state initial_state
     then get_current_state self
     else match initial_state with
          | Some s => ret s
          | None => get_current_state self
          end);
  do final_state <- lift (reduce transition alphabet_sequence initial_state);
  do_ set_current_state self final_state;
  ret final_state.
End Engine.

(** ** The mod-three machine: class [ThreeFiniteStateMachine] *)

#[global] Instance ThreeFiniteStateMachine : FiniteStateMachine Z string := {
  transition_matrix :=
    <["S0" := ["S0"; "S1"]]>
    (<["S1" := ["S2"; "S0"]]>
    (<["S2" := ["S1"; "S2"]]> ∅));
  letter_transition_index letter :=
    if bool_decide (letter ∈ [0; 1]) then Ok letter
    else super_letter_transition_index letter;
  state_check state :=
    if bool_decide (state ∈ ["S0"; "S1"; "S2"]) then Ok state
    else super_state_check state;
  initial_state := "S0";
  truthy state := negb (bool_decide (state = ""))
}.

(** The store once the module is loaded: the class body has set
    [current_state = 'S0'] and no instance exists. *)
Definition module_world : world string := World "S0" [].

(** The [match final_state] that ends [binary_divide_by_three]. *)
Definition remainder_of (final_state : string) : result Z :=
  if bool_decide (final_state = "S0") then Ok 0
  else if bool_decide (final_state = "S1") then Ok 1
  else if bool_decide (final_state = "S2") then Ok 2
  else Raise InvalidState.

Definition binary_divide_by_three (sequence : list Z) : M string Z :=
  if bool_decide (length sequence = 0%nat) then raise InvalidAlphabetContent
  else
    do state_machine <- new_object;
    do final_state <- sequence_transition state_machine sequence None;
    lift (remainder_of final_state).

(** ** [string_digit_list] *)

(** [int(digit)] for a string [digit] of one character.  Among the
    characters a [string] holds here (code points below 256), [int] takes
    the ten decimal digits ['0'..'9'] and raises [ValueError] on every
    other one.  Python's [int] also takes the decimal digits of other
    scripts, which lie above code point 255 and are outside this model:
    what is proved of [string_digit_list] is proved of strings of
    characters below 256. *)
Definition is_decimal_digit (c : ascii) : bool :=
  let n := Z.of_N (N_of_ascii c) in (48 <=? n) && (n <=? 57).

Definition int_of_char (c : ascii) : result Z :=
  if is_decimal_digit c then Ok (Z.of_N (N_of_ascii c) - 48)
  else Raise ValueError.

(** [[int(digit) for digit in digit_string]] *)
Fixpoint string_digit_list (digit_string : string) : result (list Z) :=
  match digit_string with
  | EmptyString => Ok []
  | String digit rest =>
      d ← int_of_char digit;
      ds ← string_digit_list rest;
      Ok (d :: ds)
  end.

(** ** Notions the properties are stated with *)

(** The value of a bit list read as a binary number, most significant bit
    first. *)
Definition binary_value_from (r : Z) (s : list Z) : Z :=
  fold_left (fun acc b => 2 * acc + b) s r.
Definition binary_value (s : list Z) : Z := binary_value_from 0 s.

Definition is_bit (b : Z) : Prop := b = 0 \/ b = 1.

(** The states of the mod-three machine, [Q]. *)
Definition Q3 : list string := ["S0"; "S1"; "S2"].

(** The state that stands for remainder [r]. *)
Definition state_of (r : Z) : string :=
  if r =? 0 then "S0" else if r =? 1 then "S1" else "S2".

(** The state [sequence_transition] folds from: the supplied one when it is
    supplied and truthy, the object's current state otherwise. *)
Definition starting_state {L S} `{FSM : FiniteStateMachine L S}
    (self : nat) (initial_state : option S) (w : world S) : S :=
  let current := default (class_current_state w) (mjoin (heap w !! self)) in
  match initial_state with
  | Some s => if truthy s then s else current
  | None => current
  end.

(** The object [self] exists in the store. *)
Definition live {S} (self : nat) (w : world S) : Prop :=
  (self < length (heap w))%nat.

(** ** Python numbers

    A [float] is an IEEE 754 binary64, held by its value: a finite one by
    the rational it stands for, in lowest terms (the two zeros are one
    value here, as they are for Python's comparisons).  A number is an
    [int] or a [float]; Python compares an [int] with a [float] by their
    exact values. *)

Inductive float64 : Type :=
  | Finite (q : Q)
  | Infinity (negative : bool)
  | NaN.

Inductive number : Type :=
  | Int (z : Z)
  | Float (f : float64).

Definition number_value (x : number) : float64 :=
  match x with
  | Int z => Finite (inject_Z z)
  | Float f => f
  end.

Definition Qltb (x y : Q) : bool := negb (Qle_bool y x).

(** [x < y] and [x <= y] on floats: false as soon as one side is a NaN. *)
Definition float_lt (x y : float64) : bool :=
  match x, y with
  | Finite a, Finite b => Qltb a b
  | Infinity true, Finite _ => true
  | Infinity true, Infinity false => true
  | Finite _, Infinity false => true
  | _, _ => false
  end.

Definition float_le (x y : float64) : bool :=
  match x, y with
  | Finite a, Finite b => Qle_bool a b
  | Infinity true, Finite _ => true
  | Infinity true, Infinity _ => true
  | Finite _, Infinity false => true
  | Infinity false, Infinity false => true
  | _, _ => false
  end.

Definition num_lt (x y : number) : bool :=
  float_lt (number_value x) (number_value y).
Definition num_ge (x y : number) : bool :=
  float_le (number_value y) (number_value x).

(** *** [int / int]

    True division of two integers gives the binary64 nearest to the exact
    quotient, ties to the even significand, and raises [OverflowError]
    when that is beyond the largest float. *)

(** [n / d] rounded to the nearest integer, ties to even; [d > 0]. *)
Definition round_half_even (n d : Z) : Z :=
  let q := n / d in
  let r2 := 2 * (n mod d) in
  if r2 <? d then q
  else if d <? r2 then q + 1
  else if Z.even q then q else q + 1.

(** The fraction [a / (b * 2^u)]. *)
Definition scaled (a b u : Z) : Z * Z :=
  if 0 <=? u then (a, b * 2 ^ u) else (a * 2 ^ (- u), b).

(** [floor (log2 (a / b))] for positive [a] and [b]. *)
Definition floor_log2_ratio (a b : Z) : Z :=
  let e0 := Z.log2 a - Z.log2 b in
  let '(n, d) := scaled a b e0 in
  if d <=? n then e0 else e0 - 1.

(** The rational [m * 2^u], in lowest terms. *)
Definition dyadic (m u : Z) : Q :=
  Qred (if 0 <=? u then inject_Z (m * 2 ^ u)
        else Qmake m (Z.to_pos (2 ^ (- u)))).

(** The binary64 nearest to [a / b], for [a >= 0] and [b > 0]: 53
    significant bits, the unit in the last place no smaller than
    [2^-1074]; [None] when the rounded value reaches [2^1024]. *)
Definition binary64_of_ratio (a b : Z) : option Q :=
  if a =? 0 then Some (0 # 1)%Q
  else
    let u := Z.max (floor_log2_ratio a b - 52) (-1074) in
    let '(n, d) := scaled a b u in
    let m := round_half_even n d in
    if (0 <=? u) && (2 ^ 1024 <=? m * 2 ^ u) then None
    else Some (dyadic m u).

Definition true_div (a b : Z) : result float64 :=
  if b =? 0 then Raise ZeroDivisionError
  else match binary64_of_ratio (Z.abs a) (Z.abs b) with
       | None => Raise OverflowError
       | Some q => Ok (Finite (if Z.sgn a * Z.sgn b <? 0 then Qopp q else q))
       end.

(** ** [find_best_recall_threshold] *)

(** [enumerate(l)], counting from [start]. *)
Fixpoint enumerate_from {A} (start : nat) (l : list A) : list (nat * A) :=
  match l with
  | [] => []
  | x :: rest => (start, x) :: enumerate_from (S start) rest
  end.
Definition enumerate {A} (l : list A) : list (nat * A) := enumerate_from 0 l.

(** [(i + 1) / 10] *)
Definition threshold_of (i : nat) : result float64 :=
  true_div (Z.of_nat i + 1) 10.

(** [tp / (tp + fn) if (tp + fn) > 0 else 0] *)
Definition recall_of (tp fn : Z) : result number :=
  if 0 <? tp + fn then r ← true_div tp (tp + fn); Ok (Float r)
  else Ok (Int 0).

(** One turn of the loop on [(best_threshold, best_recall)]. *)
Definition scan_step (recall_threshold : number)
    (best : option float64 * number) (item : nat * (Z * Z))
    : result (option float64 * number) :=
  let '(best_threshold, best_recall) := best in
  let '(i, (tp, fn)) := item in
  threshold ← threshold_of i;
  recall ← recall_of tp fn;
  if num_ge recall recall_threshold
     && (num_lt best_recall recall || bool_decide (best_threshold = None))
  then Ok (Some threshold, recall)
  else Ok (best_threshold, best_recall).

Definition find_best_recall_threshold (tp_list fn_list : list Z)
    (recall_threshold : number) : result (option float64) :=
  if negb (bool_decide (length tp_list = 9%nat))
     || negb (bool_decide (length fn_list = length tp_list))
  then Raise InvalidDataException
  else
    best ← reduce (scan_step recall_threshold)
                  (enumerate (zip tp_list fn_list)) (None, Int (-1));
    Ok (fst best).

(** The nine thresholds: the floats 0.1, 0.2, ..., 0.9. *)
Definition thresholds : list float64 :=
  [ Finite (3602879701896397 # 36028797018963968);
    Finite (3602879701896397 # 18014398509481984);
    Finite (5404319552844595 # 18014398509481984);
    Finite (3602879701896397 # 9007199254740992);
    Finite (1 # 2);
    Finite (5404319552844595 # 9007199254740992);
    Finite (3152519739159347 # 4503599627370496);
    Finite (3602879701896397 # 4503599627370496);
    Finite (8106479329266893 # 9007199254740992) ].

(** A number that is neither an infinity nor a NaN. *)
Definition finite (x : number) : Prop := exists q, number_value x = Finite q.

(** The pure step of the scan, on a threshold and a recall already
    computed. *)
Definition select (recall_threshold : number)
    (best : option float64 * number) (tr : float64 * number)
    : option float64 * number :=
  if num_ge (snd tr) recall_threshold
     && (num_lt (snd best) (snd tr) || bool_decide (fst best = None))
  then (Some (fst tr), snd tr)
  else best.

(** What one item of the scan computes before it compares. *)
Definition computes (item : nat * (Z * Z)) (tr : float64 * number) : Prop :=
  threshold_of (fst item) = Ok (fst tr) /\
  recall_of (fst (snd item)) (snd (snd item)) = Ok (snd tr).

(** What the scan has chosen among the (threshold, recall) pairs [views]:
    nothing when no recall meets the target; otherwise the first pair
    whose recall meets the target and is not below any other that does. *)
Definition chosen (recall_threshold : number) (views : list (float64 * number))
    (best : option float64 * number) : Prop :=
  match fst best with
  | None =>
      forall j tr, views !! j = Some tr -> num_ge (snd tr) recall_threshold = false
  | Some t =>
      exists i,
        views !! i = Some (t, snd best) /\
        num_ge (snd best) recall_threshold = true /\
        forall j tr,
          views !! j = Some tr -> num_ge (snd tr) recall_threshold = true ->
          num_lt (snd best) (snd tr) = false /\
          ((j < i)%nat -> num_lt (snd tr) (snd best) = true)
  end.

(** What the returned value is, once the lengths are right, in the code's
    own terms ([threshold_of] and [recall_of]); [best_threshold_claim]
    below says it apart from them. *)
Definition best_threshold_spec (tp_list fn_list : list Z)
    (recall_threshold : number) (best : option float64) : Prop :=
  match best with
  | None =>
      forall i tp fn r,
        tp_list !! i = Some tp -> fn_list !! i = Some fn ->
        recall_of tp fn = Ok r -> num_ge r recall_threshold = false
  | Some threshold =>
      threshold ∈ thresholds /\
      exists i tp fn r,
        tp_list !! i = Some tp /\ fn_list !! i = Some fn /\
        threshold_of i = Ok threshold /\
        recall_of tp fn = Ok r /\
        num_ge r recall_threshold = true /\
        forall j tp' fn' r',
          tp_list !! j = Some tp' -> fn_list !! j = Some fn' ->
          recall_of tp' fn' = Ok r' -> num_ge r' recall_threshold = true ->
          num_lt r r' = false /\ ((j < i)%nat -> num_lt r' r = true)
  end.

(** The recall of a bucket as the claim words it, apart from the code's
    [recall_of]: Python's quotient [tp / (tp + fn)] of the two integers
    when [tp + fn] is positive, and 0 for a bucket where it is not. *)
Definition bucket_recall (tp fn : Z) (r : number) : Prop :=
  (0 < tp + fn /\ exists f, true_div tp (tp + fn) = Ok f /\ r = Float f) \/
  (tp + fn <= 0 /\ r = Int 0).

(** The answer as the claim words it: [None] when no bucket's recall meets
    the target; otherwise the float at place [i] of 0.1, ..., 0.9, where
    bucket [i] is the first whose recall meets the target and is not below
    the recall of any other bucket that meets it. *)
Definition best_threshold_claim (tp_list fn_list : list Z)
    (recall_threshold : number) (best : option float64) : Prop :=
  match best with
  | None =>
      forall i tp fn r,
        tp_list !! i = Some tp -> fn_list !! i = Some fn ->
        bucket_recall tp fn r -> num_ge r recall_threshold = false
  | Some threshold =>
      exists i tp fn r,
        thresholds !! i = Some threshold /\
        tp_list !! i = Some tp /\ fn_list !! i = Some fn /\
        bucket_recall tp fn r /\
        num_ge r recall_threshold = true /\
        forall j tp' fn' r',
          tp_list !! j = Some tp' -> fn_list !! j = Some fn' ->
          bucket_recall tp' fn' r' -> num_ge r' recall_threshold = true ->
          num_lt r r' = false /\ ((j < i)%nat -> num_lt r' r = true)
  end.

(** * Properties *)

(** ** The fold *)

(** A fold that raises stops at a first offending element: the elements
    before it were folded, and the function raised on that element. *)
Lemma reduce_Raise_inv {A B} (f : A -> B -> result A) (l : list B) (a : A) e :
  reduce f l a = Raise e ->
  exists p x rest a',
    l = p ++ x :: rest /\ reduce f p a = Ok a' /\ f a' x = Raise e.
Proof.
  revert a. induction l as [|y l IH]; intros a; simpl; [discriminate|].
  destruct (f a y) as [a1|e1] eqn:Hf.
  - intros Hr. destruct (IH _ Hr) as (p & x & rest & a' & -> & Hp & Hx).
    exists (y :: p), x, rest, a'. simpl. rewrite Hf. auto.
  - intros [= ->]. exists [], y, l, a. auto.
Qed.

(** ** The mod-three table *)

Lemma elem_of_Q3 (q : string) :
  q ∈ Q3 <-> q = "S0" \/ q = "S1" \/ q = "S2".
Proof.
  unfold Q3. rewrite !elem_of_cons, elem_of_nil. tauto.
Qed.

Lemma state_of_Q3 (r : Z) : state_of r ∈ Q3.
Proof.
  apply elem_of_Q3. unfold state_of.
  destruct (r =? 0); [auto|]. destruct (r =? 1); auto.
Qed.

Lemma Q3_state_of (q : string) :
  q ∈ Q3 -> exists r, 0 <= r < 3 /\ q = state_of r.
Proof.
  intros Hq. apply elem_of_Q3 in Hq. destruct Hq as [->|[->| ->]].
  - exists 0. split; [lia | reflexivity].
  - exists 1. split; [lia | reflexivity].
  - exists 2. split; [lia | reflexivity].
Qed.

(** The table is the recurrence [r := (2 r + b) mod 3]. *)
Lemma transition_state_of (r b : Z) :
  0 <= r < 3 -> is_bit b ->
  transition (state_of r) b = Ok (state_of ((2 * r + b) mod 3)).
Proof.
  intros Hr Hb.
  assert (r = 0 \/ r = 1 \/ r = 2) as [->|[->| ->]] by lia;
    destruct Hb as [->| ->]; vm_compute; reflexivity.
Qed.

Lemma transition_not_bit (q : string) (b : Z) :
  q ∈ Q3 -> ~ is_bit b -> transition q b = Raise InvalidAlphabetContent.
Proof.
  intros Hq Hb.
  assert (bool_decide (b ∈ [0; 1]) = false) as Hd.
  { apply bool_decide_eq_false. rewrite !elem_of_cons, elem_of_nil.
    unfold is_bit in Hb. tauto. }
  apply elem_of_Q3 in Hq.
  destruct Hq as [->|[->| ->]]; unfold transition; cbn; rewrite Hd; reflexivity.
Qed.

(** ** Folding the table over a list of bits *)

Lemma binary_value_from_mod (s : list Z) (a : Z) :
  binary_value_from (a mod 3) s mod 3 = binary_value_from a s mod 3.
Proof.
  unfold binary_value_from. revert a.
  induction s as [|b s IH]; intros a; simpl.
  - apply Z.mod_mod. lia.
  - rewrite <- (IH (2 * (a mod 3) + b)), <- (IH (2 * a + b)).
    f_equal. f_equal.
    rewrite (Z.add_mod (2 * (a mod 3))), (Z.add_mod (2 * a)) by lia.
    rewrite Z.mul_mod_idemp_r by lia. reflexivity.
Qed.

Lemma reduce_bits (s : list Z) (r : Z) :
  0 <= r < 3 -> Forall is_bit s ->
  reduce transition s (state_of r) = Ok (state_of (binary_value_from r s mod 3)).
Proof.
  intros Hr Hs. revert r Hr.
  induction Hs as [|b s Hb Hs IH]; intros r Hr.
  - simpl. unfold binary_value_from. simpl. rewrite Z.mod_small by lia.
    reflexivity.
  - cbn [reduce]. rewrite transition_state_of by assumption.
    rewrite IH by (apply Z.mod_pos_bound; lia).
    rewrite binary_value_from_mod. reflexivity.
Qed.

(** Every state the fold reaches from a state of [Q] is in [Q] again. *)
Lemma reduce_Q3 (s : list Z) (q q' : string) :
  q ∈ Q3 -> reduce transition s q = Ok q' -> q' ∈ Q3.
Proof.
  revert q. induction s as [|b s IH]; intros q Hq; simpl.
  - intros [= <-]. assumption.
  - destruct (transition q b) as [q1|e] eqn:Ht; [|discriminate].
    apply IH. destruct (Q3_state_of q Hq) as (r & Hr & ->).
    destruct (Z.eq_dec b 0) as [->|H0]; [|destruct (Z.eq_dec b 1) as [->|H1]].
    + rewrite transition_state_of in Ht by (unfold is_bit; auto).
      injection Ht as <-. apply state_of_Q3.
    + rewrite transition_state_of in Ht by (unfold is_bit; auto).
      injection Ht as <-. apply state_of_Q3.
    + rewrite transition_not_bit in Ht; [discriminate | apply state_of_Q3 |].
      unfold is_bit. lia.
Qed.

(** A list with an element outside [{0,1}] makes the fold raise
    [InvalidAlphabetContent], from whatever state of [Q] it starts. *)
Lemma reduce_not_bits (s : list Z) (q : string) :
  q ∈ Q3 -> Exists (fun b => ~ is_bit b) s ->
  reduce transition s q = Raise InvalidAlphabetContent.
Proof.
  intros Hq Hs. revert q Hq.
  induction s as [|b s IH]; intros q Hq; [inversion Hs|].
  cbn [reduce].
  destruct (Z.eq_dec b 0) as [->|H0]; [|destruct (Z.eq_dec b 1) as [->|H1]].
  - destruct (Q3_state_of q Hq) as (r & Hr & ->).
    rewrite transition_state_of by (unfold is_bit; auto).
    apply IH; [|apply state_of_Q3].
    inversion Hs as [? ? Hb|]; subst; [|assumption].
    exfalso. apply Hb. left. reflexivity.
  - destruct (Q3_state_of q Hq) as (r & Hr & ->).
    rewrite transition_state_of by (unfold is_bit; auto).
    apply IH; [|apply state_of_Q3].
    inversion Hs as [? ? Hb|]; subst; [|assumption].
    exfalso. apply Hb. right. reflexivity.
  - rewrite transition_not_bit; [reflexivity | assumption |].
    unfold is_bit. lia.
Qed.

(** From a state of [Q] the fold raises nothing but
    [InvalidAlphabetContent]. *)
Lemma reduce_Raise_Q3 (s : list Z) (q : string) (e : exn) :
  q ∈ Q3 -> reduce transition s q = Raise e -> e = InvalidAlphabetContent.
Proof.
  revert q. induction s as [|b s IH]; intros q Hq; simpl; [discriminate|].
  destruct (Q3_state_of q Hq) as (r & Hr & ->).
  destruct (Z.eq_dec b 0) as [->|H0]; [|destruct (Z.eq_dec b 1) as [->|H1]].
  - rewrite transition_state_of by (unfold is_bit; auto).
    apply IH, state_of_Q3.
  - rewrite transition_state_of by (unfold is_bit; auto).
    apply IH, state_of_Q3.
  - rewrite transition_not_bit; [congruence | apply state_of_Q3 |].
    unfold is_bit. lia.
Qed.

Lemma remainder_of_state_of (r : Z) :
  0 <= r < 3 -> remainder_of (state_of r) = Ok r.
Proof.
  intros Hr.
  assert (r = 0 \/ r = 1 \/ r = 2) as [->|[->| ->]] by lia; reflexivity.
Qed.

Lemma remainder_of_Q3 (q : string) :
  q ∈ Q3 -> exists r, 0 <= r < 3 /\ remainder_of q = Ok r.
Proof.
  intros Hq. destruct (Q3_state_of q Hq) as (r & Hr & ->).
  exists r. split; [assumption | apply remainder_of_state_of; assumption].
Qed.

(** ** The store *)

Lemma lookup_fresh {S} (h : list (option S)) :
  (h ++ [None]) !! length h = Some None.
Proof.
  rewrite lookup_app_r by reflexivity.
  rewrite Nat.sub_diag. reflexivity.
Qed.

Lemma insert_fresh {S} (h : list (option S)) (v : option S) :
  <[length h := v]> (h ++ [None]) = h ++ [v].
Proof.
  rewrite insert_app_r_alt by reflexivity.
  rewrite Nat.sub_diag. reflexivity.
Qed.

(** What a call of [binary_divide_by_three] on a non-empty list does: the
    new machine starts from the class attribute, and the only thing left in
    the store is the machine itself. *)
Lemma binary_divide_by_three_unfold (sequence : list Z) (w : world string) :
  sequence <> [] ->
  binary_divide_by_three sequence w =
  match reduce transition sequence (class_current_state w) with
  | Ok q => (remainder_of q, World (class_current_state w) (heap w ++ [Some q]))
  | Raise e => (Raise e, World (class_current_state w) (heap w ++ [None]))
  end.
Proof.
  intros Hne. unfold binary_divide_by_three.
  rewrite bool_decide_eq_false_2
    by (destruct sequence; [congruence | discriminate]).
  unfold bind, new_object, sequence_transition, bind, get_current_state,
    lift, set_current_state, ret. cbn.
  rewrite lookup_fresh. cbn.
  destruct (reduce transition sequence (class_current_state w)); cbn.
  - rewrite insert_fresh. reflexivity.
  - reflexivity.
Qed.

(** ** The adapter [binary_divide_by_three] *)

Lemma binary_divide_by_three_bits (s : list Z) (w : world string) :
  s <> [] -> Forall is_bit s -> class_current_state w = "S0" ->
  binary_divide_by_three s w
  = (Ok (binary_value s mod 3),
     World "S0" (heap w ++ [Some (state_of (binary_value s mod 3))])).
Proof.
  intros Hne Hs Hw.
  rewrite binary_divide_by_three_unfold by assumption.
  rewrite Hw. change "S0" with (state_of 0) at 1.
  rewrite reduce_bits by (assumption || lia).
  fold (binary_value s).
  rewrite remainder_of_state_of by (apply Z.mod_pos_bound; lia).
  reflexivity.
Qed.

(** C1: for every non-empty list [s] of bits, in a store where the class
    attribute [current_state] is ['S0'] as the class body sets it,
    [binary_divide_by_three s] returns the value of [s], read as a binary
    number with the most significant bit first, modulo 3. *)
Theorem binary_divide_by_three_mod3 (s : list Z) (w : world string) :
  s <> [] -> Forall is_bit s -> class_current_state w = "S0" ->
  fst (binary_divide_by_three s w) = Ok (binary_value s mod 3).
Proof.
  intros Hne Hs Hw.
  rewrite binary_divide_by_three_bits by assumption.
  reflexivity.
Qed.

(** The three tests of the source: 13, 14 and 15 modulo 3. *)
Lemma binary_divide_by_three_mod3_witness :
  [1;1;0;1] <> [] /\ Forall is_bit [1;1;0;1] /\
  class_current_state module_world = "S0" /\
  fst (binary_divide_by_three [1;1;0;1] module_world) = Ok 1 /\
  fst (binary_divide_by_three [1;1;1;0] module_world) = Ok 2 /\
  fst (binary_divide_by_three [1;1;1;1] module_world) = Ok 0.
Proof.
  assert (forall s, Forall is_bit s -> Forall is_bit (1 :: s)) as H1
    by (intros s Hs; constructor; [right; reflexivity | exact Hs]).
  assert (forall s, Forall is_bit s -> Forall is_bit (0 :: s)) as H0
    by (intros s Hs; constructor; [left; reflexivity | exact Hs]).
  split; [discriminate|]. split; [auto|]. split; [reflexivity|].
  split; [|split].
  - apply (binary_divide_by_three_mod3 [1;1;0;1] module_world);
      [discriminate | auto | reflexivity].
  - apply (binary_divide_by_three_mod3 [1;1;1;0] module_world);
      [discriminate | auto | reflexivity].
  - apply (binary_divide_by_three_mod3 [1;1;1;1] module_world);
      [discriminate | auto | reflexivity].
Defined.

(** C3: on the empty list [binary_divide_by_three] raises
    [InvalidAlphabetContent], whatever the store, and returns no
    remainder; the store is left as it was. *)
Theorem binary_divide_by_three_empty (w : world string) :
  binary_divide_by_three [] w = (Raise InvalidAlphabetContent, w) /\
  forall r, fst (binary_divide_by_three [] w) <> Ok r.
Proof.
  split; [reflexivity|]. intros r. discriminate.
Qed.

(** C4: a list of integers with an element [x] outside [{0,1}] makes
    [binary_divide_by_three] raise [InvalidAlphabetContent], whatever stands
    before and after [x]. *)
Theorem binary_divide_by_three_invalid_symbol
    (p rest : list Z) (x : Z) (w : world string) :
  ~ is_bit x -> class_current_state w = "S0" ->
  fst (binary_divide_by_three (p ++ x :: rest) w) = Raise InvalidAlphabetContent.
Proof.
  intros Hx Hw.
  rewrite binary_divide_by_three_unfold by (destruct p; discriminate).
  rewrite Hw, reduce_not_bits.
  - reflexivity.
  - apply elem_of_Q3. auto.
  - apply Exists_app. right. constructor. exact Hx.
Qed.

Lemma binary_divide_by_three_invalid_symbol_witness :
  ~ is_bit 2 /\ class_current_state module_world = "S0" /\
  fst (binary_divide_by_three ([1; 0] ++ 2 :: [1]) module_world)
  = Raise InvalidAlphabetContent.
Proof.
  assert (~ is_bit 2) as H2 by (unfold is_bit; lia).
  split; [exact H2|]. split; [reflexivity|].
  apply (binary_divide_by_three_invalid_symbol [1; 0] [1] 2 module_world H2).
  reflexivity.
Defined.

(** A call reads the class attribute and nothing else of the store, and
    leaves the class attribute as it was. *)
Lemma binary_divide_by_three_reads_class (l : list Z) (w w' : world string) :
  class_current_state w' = class_current_state w ->
  fst (binary_divide_by_three l w') = fst (binary_divide_by_three l w).
Proof.
  intros Hcls. destruct l as [|b l]; [reflexivity|].
  rewrite (binary_divide_by_three_unfold (b :: l) w) by discriminate.
  rewrite (binary_divide_by_three_unfold (b :: l) w') by discriminate.
  rewrite Hcls.
  destruct (reduce transition (b :: l) (class_current_state w)); reflexivity.
Qed.

Lemma binary_divide_by_three_keeps_class (l : list Z) (w : world string) :
  class_current_state (snd (binary_divide_by_three l w)) = class_current_state w.
Proof.
  destruct l as [|a l]; [reflexivity|].
  rewrite binary_divide_by_three_unfold by discriminate.
  destruct (reduce transition (a :: l) (class_current_state w)); reflexivity.
Qed.

(** C6: a call of [binary_divide_by_three] builds its own machine, so what
    it returns or raises depends on its argument only: after a call on
    [l1], a call on [l2] gives what it gives without the first call, and a
    second call on the same list gives the same again.  The machine of the
    first call stays in the store, with its final state, and the second
    call does not read it. *)
Theorem binary_divide_by_three_independent (l1 l2 : list Z) (w : world string) :
  fst (binary_divide_by_three l2 (snd (binary_divide_by_three l1 w)))
  = fst (binary_divide_by_three l2 w) /\
  fst (binary_divide_by_three l1 (snd (binary_divide_by_three l1 w)))
  = fst (binary_divide_by_three l1 w) /\
  (forall h : list (option string),
     fst (binary_divide_by_three l2 (World (class_current_state w) h))
     = fst (binary_divide_by_three l2 w)).
Proof.
  split; [|split].
  - apply binary_divide_by_three_reads_class, binary_divide_by_three_keeps_class.
  - apply binary_divide_by_three_reads_class, binary_divide_by_three_keeps_class.
  - intros h. apply binary_divide_by_three_reads_class. reflexivity.
Qed.

(** C7: the table keeps the machine inside [Q = {S0, S1, S2}] on the
    letters 0 and 1; so for a non-empty list of bits the final state that
    [binary_divide_by_three] computes on its new machine is in [Q], the
    remainder match finds its case, and the call does not raise
    [InvalidState].  More, on any list of integers a final state, when
    there is one, is in [Q], and the call does not raise [InvalidState]. *)
Theorem three_machine_closed :
  (forall q b, q ∈ Q3 -> is_bit b ->
     exists q', transition q b = Ok q' /\ q' ∈ Q3) /\
  (forall (s : list Z) (w : world string),
     s <> [] -> Forall is_bit s -> class_current_state w = "S0" ->
     exists q,
       fst (sequence_transition (length (heap w)) s None (snd (new_object w)))
       = Ok q /\
       q ∈ Q3 /\
       remainder_of q <> Raise InvalidState /\
       fst (binary_divide_by_three s w) <> Raise InvalidState) /\
  (forall (s : list Z) (w : world string),
     class_current_state w = "S0" ->
     (forall q, reduce transition s "S0" = Ok q ->
                q ∈ Q3 /\ remainder_of q <> Raise InvalidState) /\
     fst (binary_divide_by_three s w) <> Raise InvalidState).
Proof.
  assert ("S0" ∈ Q3) as HS0 by (apply elem_of_Q3; auto).
  split; [|split].
  - intros q b Hq Hb. destruct (Q3_state_of q Hq) as (r & Hr & ->).
    exists (state_of ((2 * r + b) mod 3)).
    split; [apply transition_state_of; assumption | apply state_of_Q3].
  - intros s w Hne Hs Hw.
    exists (state_of (binary_value s mod 3)).
    assert (reduce transition s "S0" = Ok (state_of (binary_value s mod 3))) as Hred.
    { change "S0" with (state_of 0). apply reduce_bits; [lia | assumption]. }
    assert (0 <= binary_value s mod 3 < 3) as Hr by (apply Z.mod_pos_bound; lia).
    split; [|split; [|split]].
    + unfold sequence_transition, bind, new_object, get_current_state, lift,
        set_current_state, ret. cbn.
      rewrite lookup_fresh. cbn. rewrite Hw, Hred. reflexivity.
    + apply state_of_Q3.
    + rewrite remainder_of_state_of by assumption. discriminate.
    + rewrite binary_divide_by_three_bits by assumption. discriminate.
  - intros s w Hw.
    assert (forall q, reduce transition s "S0" = Ok q ->
                      q ∈ Q3 /\ remainder_of q <> Raise InvalidState) as Hfinal.
    { intros q Hq. pose proof (reduce_Q3 s "S0" q HS0 Hq) as HqQ.
      split; [exact HqQ|].
      destruct (remainder_of_Q3 q HqQ) as (r & _ & ->). discriminate. }
    split; [exact Hfinal|].
    destruct s as [|b s]; [discriminate|].
    rewrite binary_divide_by_three_unfold by discriminate. rewrite Hw.
    destruct (reduce transition (b :: s) "S0") as [q|e] eqn:Hred; cbn [fst].
    + apply (Hfinal q eq_refl).
    + rewrite (reduce_Raise_Q3 _ _ _ HS0 Hred). discriminate.
Qed.

(** The table at work on one state and one letter, and the final state of
    the source's first test. *)
Lemma three_machine_closed_witness :
  "S1" ∈ Q3 /\ is_bit 0 /\
  (exists q', transition "S1" 0 = Ok q' /\ q' ∈ Q3) /\
  [1;1;0;1] <> [] /\ Forall is_bit [1;1;0;1] /\
  class_current_state module_world = "S0" /\
  exists q,
    fst (sequence_transition (length (heap module_world)) [1;1;0;1] None
           (snd (new_object module_world))) = Ok q /\
    q ∈ Q3 /\
    remainder_of q <> Raise InvalidState /\
    fst (binary_divide_by_three [1;1;0;1] module_world) <> Raise InvalidState.
Proof.
  assert ("S1" ∈ Q3) as Hq by (apply elem_of_Q3; auto).
  assert (is_bit 0) as H0 by (left; reflexivity).
  assert (is_bit 1) as H1 by (right; reflexivity).
  assert (Forall is_bit [1;1;0;1]) as Hs by (repeat constructor; assumption).
  assert ([1;1;0;1] <> ([] : list Z)) as Hne by discriminate.
  split; [exact Hq|]. split; [exact H0|].
  split; [exact (proj1 three_machine_closed "S1" 0 Hq H0)|].
  split; [exact Hne|]. split; [exact Hs|]. split; [reflexivity|].
  exact (proj1 (proj2 three_machine_closed) [1;1;0;1] module_world Hne Hs eq_refl).
Defined.

(** ** The engine [sequence_transition] *)

Section EngineFacts.
Context {L S : Type} `{FSM : FiniteStateMachine L S}.

(** The fold runs first, on a local value; the assignment to
    [self.current_state] is reached only when the fold has returned. *)
Lemma sequence_transition_unfold (self : nat) (alphabet_sequence : list L)
    (initial_state : option S) (w : world S) :
  sequence_transition self alphabet_sequence initial_state w =
  match reduce transition alphabet_sequence (starting_state self initial_state w) with
  | Ok q => (Ok q, World (class_current_state w) (<[self := Some q]> (heap w)))
  | Raise e => (Raise e, w)
  end.
Proof.
  unfold sequence_transition, starting_state, not_initial_state, bind, lift,
    get_current_state, set_current_state, ret.
  destruct initial_state as [s|]; [destruct (truthy s)|]; cbn;
    match goal with |- context [reduce ?f ?l ?a] => destruct (reduce f l a) end;
    reflexivity.
Qed.

Lemma get_set_current_state (self : nat) (q : S) (w : world S) :
  live self w ->
  fst (get_current_state self
         (World (class_current_state w) (<[self := Some q]> (heap w)))) = Ok q.
Proof.
  intros Hlive. unfold get_current_state. cbn.
  rewrite list_lookup_insert_eq by exact Hlive. reflexivity.
Qed.

(** With a truthy supplied state, or none, the result is the fold of
    [transition] from the supplied state, or from the current one; when
    it returns, [self.current_state] is what it returned. *)
Lemma sequence_transition_fold (self : nat) (alphabet_sequence : list L)
    (initial_state : option S) (w : world S) :
  fst (sequence_transition self alphabet_sequence initial_state w)
  = reduce transition alphabet_sequence (starting_state self initial_state w).
Proof.
  rewrite sequence_transition_unfold.
  destruct (reduce transition alphabet_sequence _); reflexivity.
Qed.

Lemma sequence_transition_commit (self : nat) (alphabet_sequence : list L)
    (initial_state : option S) (w w' : world S) (q : S) :
  live self w ->
  sequence_transition self alphabet_sequence initial_state w = (Ok q, w') ->
  fst (get_current_state self w') = Ok q /\
  class_current_state w' = class_current_state w.
Proof.
  intros Hlive. rewrite sequence_transition_unfold.
  destruct (reduce transition alphabet_sequence _) as [q1|e]; [|discriminate].
  intros [= -> <-]. split; [apply get_set_current_state; exact Hlive | reflexivity].
Qed.
End EngineFacts.

(** C2: when [sequence_transition] raises, the store after the call is
    the store before it, and so is [self.current_state]; the exception is
    the one [transition] raised on the first element it could not take,
    after the elements before it were folded. *)
Theorem sequence_transition_failure_atomic
    {L S : Type} `{FSM : FiniteStateMachine L S}
    (self : nat) (alphabet_sequence : list L) (initial_state : option S)
    (w w' : world S) (e : exn) :
  sequence_transition self alphabet_sequence initial_state w = (Raise e, w') ->
  w' = w /\
  fst (get_current_state self w') = fst (get_current_state self w) /\
  exists p x rest q,
    alphabet_sequence = p ++ x :: rest /\
    reduce transition p (starting_state self initial_state w) = Ok q /\
    transition q x = Raise e.
Proof.
  rewrite sequence_transition_unfold.
  destruct (reduce transition alphabet_sequence _) as [q|e1] eqn:Hred;
    [discriminate|].
  intros [= -> <-]. split; [reflexivity|]. split; [reflexivity|].
  apply reduce_Raise_inv. exact Hred.
Qed.

Lemma sequence_transition_failure_atomic_witness :
  let w := World "S1" [Some "S2"] in
  sequence_transition 0%nat [1; 2; 1] None w = (Raise InvalidAlphabetContent, w) /\
  (w = w /\
   fst (get_current_state 0%nat w) = fst (get_current_state 0%nat w) /\
   exists p x rest q,
     [1; 2; 1] = p ++ x :: rest /\
     reduce transition p (starting_state 0%nat None w) = Ok q /\
     transition q x = Raise InvalidAlphabetContent).
Proof.
  intros w.
  assert (sequence_transition 0%nat [1; 2; 1] None w
          = (Raise InvalidAlphabetContent, w)) as Hrun
    by (vm_compute; reflexivity).
  split; [exact Hrun|].
  exact (sequence_transition_failure_atomic 0%nat [1; 2; 1] None w w
           InvalidAlphabetContent Hrun).
Defined.

(** C5: a supplied starting state that is falsy is taken for an absent one.
    On a new mod-three machine, [sequence_transition([1], '')] returns
    ['S1'], the fold from the current state ['S0'], where the fold of
    [transition] from the supplied [''] raises [InvalidState]; and
    [sequence_transition([], '')] returns ['S0'] where the fold from ['']
    is ['']. *)
Theorem sequence_transition_falsy_start :
  let w := snd (new_object module_world) in
  fst (sequence_transition 0%nat [1] (Some "") w) = Ok "S1" /\
  reduce transition [1] "" = Raise InvalidState /\
  fst (sequence_transition 0%nat [] (Some "") w) = Ok "S0" /\
  reduce transition ([] : list Z) "" = Ok "".
Proof.
  cbv zeta. repeat split; vm_compute; reflexivity.
Qed.

(** C10: on the empty list [sequence_transition] does not raise.  With a
    supplied truthy state [s], in [Q] or not, it returns [s] and
    [self.current_state] becomes [s]; no [transition] runs, so nothing
    checks [s].  The empty list is refused by [binary_divide_by_three]
    alone. *)
Theorem sequence_transition_empty :
  (forall (L S : Type) `(FSM : FiniteStateMachine L S)
          (self : nat) (initial_state : option S) (w : world S),
     exists q w', sequence_transition self [] initial_state w = (Ok q, w')) /\
  (forall (L S : Type) `(FSM : FiniteStateMachine L S)
          (self : nat) (s : S) (w : world S),
     truthy s = true -> live self w ->
     exists w',
       sequence_transition self [] (Some s) w = (Ok s, w') /\
       fst (get_current_state self w') = Ok s) /\
  (forall w : world string,
     fst (binary_divide_by_three [] w) = Raise InvalidAlphabetContent).
Proof.
  split; [|split].
  - intros L S ? ? FSM self initial_state w.
    rewrite sequence_transition_unfold. cbn. eauto.
  - intros L S ? ? FSM self s w Hs Hlive.
    rewrite sequence_transition_unfold. unfold starting_state. rewrite Hs. cbn.
    eexists. split; [reflexivity|].
    apply get_set_current_state. exact Hlive.
  - intros w. reflexivity.
Qed.

(** A truthy state outside [Q] on the mod-three machine. *)
Lemma sequence_transition_empty_witness :
  let w := World "S0" [None] in
("S7" ∉ Q3) /\ truthy "S7" = true /\ live 0%nat w /\
  exists w',
    sequence_transition 0%nat [] (Some "S7") w = (Ok "S7", w') /\
    fst (get_current_state 0%nat w') = Ok "S7".
Proof.
  intros w.
  assert ("S7" ∉ Q3) as Hq
    by (rewrite elem_of_Q3; intros [H|[H|H]]; discriminate H).
  assert (live 0%nat w) as Hlive by (unfold live; cbn; lia).
  split; [exact Hq|]. split; [reflexivity|]. split; [exact Hlive|].
  exact (proj1 (proj2 sequence_transition_empty) Z string _ _
           ThreeFiniteStateMachine 0%nat "S7" w eq_refl Hlive).
Defined.

(** ** [string_digit_list] *)

Lemma string_digit_list_digits (digit_string : string) :
  Forall (fun c => is_decimal_digit c = true) (list_ascii_of_string digit_string) ->
  string_digit_list digit_string
  = Ok (map (fun c => Z.of_N (N_of_ascii c) - 48) (list_ascii_of_string digit_string)).
Proof.
  induction digit_string as [|c rest IH]; intros Hd; [reflexivity|].
  cbn [list_ascii_of_string] in Hd. inversion Hd as [|? ? Hc Hrest]; subst.
  cbn [string_digit_list list_ascii_of_string map].
  unfold int_of_char. rewrite Hc. cbn. rewrite (IH Hrest). reflexivity.
Qed.

(** C8: on a string of decimal digits [string_digit_list] returns a list
    with one integer for each character, the value of that digit, be it a
    bit or not; ["1101"] gives [[1,1,0,1]], on which
    [binary_divide_by_three] returns 1. *)
Theorem string_digit_list_spec :
  (forall digit_string : string,
     Forall (fun c => is_decimal_digit c = true) (list_ascii_of_string digit_string) ->
     exists l,
       string_digit_list digit_string = Ok l /\
       length l = String.length digit_string /\
       forall (i : nat) (c : ascii),
         String.get i digit_string = Some c ->
         l !! i = Some (Z.of_N (N_of_ascii c) - 48) /\
         0 <= Z.of_N (N_of_ascii c) - 48 <= 9) /\
  string_digit_list "1101" = Ok [1; 1; 0; 1] /\
  string_digit_list "1290" = Ok [1; 2; 9; 0] /\
  fst ((do l <- lift (string_digit_list "1101"); binary_divide_by_three l)
         module_world) = Ok 1.
Proof.
  split; [|repeat split; vm_compute; reflexivity].
  intros digit_string Hd. eexists. split; [apply string_digit_list_digits; exact Hd|].
  split.
  - rewrite length_map. clear Hd.
    induction digit_string as [|c rest IH]; cbn; [reflexivity | f_equal; exact IH].
  - revert Hd. induction digit_string as [|c0 rest IH]; intros Hd i c Hget;
      [discriminate|].
    cbn [list_ascii_of_string] in Hd. inversion Hd as [|? ? Hc Hrest]; subst.
    destruct i as [|i]; cbn in Hget |- *.
    + injection Hget as <-. split; [reflexivity|].
      unfold is_decimal_digit in Hc. apply andb_prop in Hc. lia.
    + apply IH; assumption.
Qed.

Lemma string_digit_list_spec_witness :
  Forall (fun c => is_decimal_digit c = true) (list_ascii_of_string "1290") /\
  exists l,
    string_digit_list "1290" = Ok l /\
    length l = String.length "1290" /\
    forall (i : nat) (c : ascii),
      String.get i "1290" = Some c ->
      l !! i = Some (Z.of_N (N_of_ascii c) - 48) /\
      0 <= Z.of_N (N_of_ascii c) - 48 <= 9.
Proof.
  assert (Forall (fun c => is_decimal_digit c = true) (list_ascii_of_string "1290"))
    as Hd by (repeat constructor).
  split; [exact Hd|].
  exact (proj1 string_digit_list_spec "1290" Hd).
Defined.

(** * The recall-threshold scan *)

(** ** Order on finite numbers *)

Lemma Qltb_lt (x y : Q) : Qltb x y = true <-> (x < y)%Q.
Proof.
  unfold Qltb. rewrite negb_true_iff. split.
  - intros H. apply Qnot_le_lt. intros Hle.
    apply Qle_bool_iff in Hle. congruence.
  - intros H. destruct (Qle_bool y x) eqn:E; [|reflexivity].
    apply Qle_bool_iff in E. exfalso. exact (Qlt_not_le _ _ H E).
Qed.

Lemma num_lt_finite (x y : number) (qx qy : Q) :
  number_value x = Finite qx -> number_value y = Finite qy ->
  (num_lt x y = true <-> (qx < qy)%Q).
Proof.
  intros Hx Hy. unfold num_lt. rewrite Hx, Hy. cbn. apply Qltb_lt.
Qed.

Lemma num_lt_irrefl (x : number) : num_lt x x = false.
Proof.
  unfold num_lt. destruct (number_value x) as [q|[|]|]; cbn; try reflexivity.
  apply not_true_iff_false. rewrite Qltb_lt. apply Qlt_irrefl.
Qed.

Lemma num_lt_asym (x y : number) : num_lt x y = true -> num_lt y x = false.
Proof.
  unfold num_lt.
  destruct (number_value x) as [a|[|]|], (number_value y) as [b|[|]|];
    cbn; try reflexivity; try discriminate.
  rewrite Qltb_lt. intros H. apply not_true_iff_false. rewrite Qltb_lt.
  intros H'. exact (Qlt_irrefl _ (Qlt_trans _ _ _ H H')).
Qed.

(** [y <= x < z] gives [y < z], for numbers that are finite. *)
Lemma num_le_lt_trans (x y z : number) :
  finite x -> finite y -> finite z ->
  num_lt x y = false -> num_lt x z = true -> num_lt y z = true.
Proof.
  intros [qx Hx] [qy Hy] [qz Hz] Hxy Hxz.
  rewrite (num_lt_finite _ _ _ _ Hx Hz) in Hxz.
  apply not_true_iff_false in Hxy. rewrite (num_lt_finite _ _ _ _ Hx Hy) in Hxy.
  apply (num_lt_finite _ _ _ _ Hy Hz).
  apply Qle_lt_trans with qx; [apply Qnot_lt_le; exact Hxy | exact Hxz].
Qed.

(** ** True division *)

Lemma true_div_Raise (a b : Z) (e : exn) :
  true_div a b = Raise e -> e = ZeroDivisionError \/ e = OverflowError.
Proof.
  unfold true_div. destruct (b =? 0); [intros [= <-]; auto|].
  destruct (binary64_of_ratio _ _); [discriminate | intros [= <-]; auto].
Qed.

Lemma true_div_Ok_finite (a b : Z) (f : float64) :
  true_div a b = Ok f -> exists q, f = Finite q.
Proof.
  unfold true_div. destruct (b =? 0); [discriminate|].
  destruct (binary64_of_ratio _ _); [|discriminate].
  intros [= <-]. eauto.
Qed.

(** The model on quotients whose floats are known: 1/3, a tie that goes
    to the even significand, a subnormal, an underflow to zero, an
    overflow. *)
Example true_div_third :
  true_div 1 3 = Ok (Finite (6004799503160661 # 18014398509481984)).
Proof. vm_compute. reflexivity. Qed.

Example true_div_tie_to_even :
  true_div (2 ^ 53 + 1) 1 = Ok (Finite (inject_Z (2 ^ 53))) /\
  true_div (2 ^ 53 + 3) 1 = Ok (Finite (inject_Z (2 ^ 53 + 4))).
Proof. split; vm_compute; reflexivity. Qed.

Example true_div_subnormal :
  true_div 1 (2 ^ 1074 + 1) = Ok (Finite (1 # Z.to_pos (2 ^ 1074))) /\
  true_div 1 (2 ^ 1076) = Ok (Finite 0).
Proof. split; vm_compute; reflexivity. Qed.

Example true_div_overflow :
  true_div (2 ^ 1024) 1 = Raise OverflowError /\
  true_div 1 0 = Raise ZeroDivisionError.
Proof. split; vm_compute; reflexivity. Qed.

Lemma floor_log2_ratio_le (a b : Z) :
  0 < a <= b -> floor_log2_ratio a b <= 0.
Proof.
  intros Hab. unfold floor_log2_ratio.
  assert (Z.log2 a <= Z.log2 b) by (apply Z.log2_le_mono; lia).
  destruct (scaled a b (Z.log2 a - Z.log2 b)) as [n d].
  destruct (d <=? n); lia.
Qed.

(** A quotient of at most one is never too large for a float. *)
Lemma true_div_fraction (a b : Z) :
  0 <= a <= b -> 0 < b -> exists q, true_div a b = Ok (Finite q).
Proof.
  intros Ha Hb. unfold true_div.
  rewrite (proj2 (Z.eqb_neq b 0)) by lia.
  rewrite (Z.abs_eq a), (Z.abs_eq b) by lia.
  unfold binary64_of_ratio.
  destruct (a =? 0) eqn:Ea; [eauto|].
  apply Z.eqb_neq in Ea.
  pose proof (floor_log2_ratio_le a b ltac:(lia)) as He.
  set (u := Z.max (floor_log2_ratio a b - 52) (-1074)).
  assert (u < 0) as Hu by (unfold u; lia).
  destruct (scaled a b u) as [n d].
  rewrite (proj2 (Z.leb_gt 0 u)) by exact Hu.
  cbn [andb]. eauto.
Qed.

Lemma threshold_of_nth (i : nat) :
  (i < 9)%nat -> exists t, threshold_of i = Ok t /\ thresholds !! i = Some t.
Proof.
  intros Hi.
  do 9 (destruct i as [|i]; [eexists; split; vm_compute; reflexivity|]).
  lia.
Qed.

Lemma recall_of_Ok (tp fn : Z) :
  0 <= tp -> 0 <= fn -> exists r, recall_of tp fn = Ok r /\ finite r.
Proof.
  intros Htp Hfn. unfold recall_of.
  destruct (0 <? tp + fn) eqn:E.
  - apply Z.ltb_lt in E.
    destruct (true_div_fraction tp (tp + fn)) as [q Hq]; [lia | lia |].
    rewrite Hq. cbn. eexists. split; [reflexivity|]. exists q. reflexivity.
  - eexists. split; [reflexivity|]. eexists. reflexivity.
Qed.

Lemma recall_of_Raise (tp fn : Z) (e : exn) :
  recall_of tp fn = Raise e -> e = ZeroDivisionError \/ e = OverflowError.
Proof.
  unfold recall_of. destruct (0 <? tp + fn); [|discriminate].
  destruct (true_div tp (tp + fn)) eqn:E; cbn; [discriminate|].
  intros [= <-]. exact (true_div_Raise _ _ _ E).
Qed.

Lemma scan_step_Raise rt best item (e : exn) :
  scan_step rt best item = Raise e ->
  e = ZeroDivisionError \/ e = OverflowError.
Proof.
  destruct best as [bt br], item as [i [tp fn]]. unfold scan_step.
  destruct (threshold_of i) as [t|e1] eqn:Et; cbn.
  - destruct (recall_of tp fn) as [r|e2] eqn:Er; cbn.
    + destruct (_ && _); discriminate.
    + intros [= <-]. exact (recall_of_Raise _ _ _ Er).
  - intros [= <-]. exact (true_div_Raise _ _ _ Et).
Qed.

(** ** The scan *)

Lemma scan_as_select rt items views best :
  Forall2 computes items views ->
  reduce (scan_step rt) items best = Ok (fold_left (select rt) views best).
Proof.
  intros H. revert best.
  induction H as [|item tr items views [Ht Hr] _ IH]; intros best;
    [reflexivity|].
  destruct best as [bt br], item as [i [tp fn]], tr as [t r].
  cbn [fst snd] in Ht, Hr. cbn [reduce fold_left]. unfold scan_step.
  rewrite Ht, Hr. cbn. unfold select at 2. cbn [fst snd].
  destruct (_ && _); apply IH.
Qed.

Lemma select_fold_chosen rt views :
  Forall (fun tr => finite (snd tr)) views ->
  chosen rt views (fold_left (select rt) views (None, Int (-1))).
Proof.
  induction views as [|x views IH] using rev_ind; intros Hfin.
  - intros j tr Hj. rewrite lookup_nil in Hj. discriminate.
  - apply Forall_app in Hfin. destruct Hfin as [Hfin Hx].
    apply Forall_inv in Hx. specialize (IH Hfin).
    rewrite fold_left_app. cbn [fold_left].
    destruct (fold_left (select rt) views (None, Int (-1))) as [bt br] eqn:Efold.
    unfold chosen in IH. cbn [fst snd] in IH.
    unfold select. cbn [fst snd].
    destruct (num_ge (snd x) rt) eqn:Ege; cbn [andb].
    + destruct bt as [t|].
      * rewrite bool_decide_eq_false_2 by discriminate. rewrite orb_false_r.
        destruct IH as (i & Hi & Hbr & Hall).
        assert (finite br) as Hfbr.
        { rewrite Forall_lookup in Hfin. exact (Hfin i _ Hi). }
        destruct (num_lt br (snd x)) eqn:Elt.
        -- (* the new item takes over *)
           unfold chosen. cbn [fst snd]. exists (length views).
           split; [rewrite lookup_app_r, Nat.sub_diag by lia; destruct x; reflexivity|].
           split; [exact Ege|].
           intros j tr Hj Hgej.
           destruct (lookup_app_Some views [x] j tr) as [Hcases _].
           destruct (Hcases Hj) as [Hin | [Hlen Hlast]].
           ++ destruct (Hall j tr Hin Hgej) as [Hnlt _].
              assert (num_lt (snd tr) (snd x) = true) as Hlt.
              { apply (num_le_lt_trans br); try assumption.
                rewrite Forall_lookup in Hfin. exact (Hfin j _ Hin). }
              split; [apply num_lt_asym; exact Hlt | intros _; exact Hlt].
           ++ destruct (j - length views)%nat eqn:Ej; [|destruct n; discriminate].
              injection Hlast as <-.
              split; [apply num_lt_irrefl | lia].
        -- (* the best so far stays *)
           unfold chosen. cbn [fst snd]. exists i.
           split; [apply lookup_app_l_Some; exact Hi|].
           split; [exact Hbr|].
           intros j tr Hj Hgej.
           destruct (lookup_app_Some views [x] j tr) as [Hcases _].
           destruct (Hcases Hj) as [Hin | [Hlen Hlast]].
           ++ exact (Hall j tr Hin Hgej).
           ++ destruct (j - length views)%nat eqn:Ej; [|destruct n; discriminate].
              injection Hlast as <-.
              split; [exact Elt|].
              apply lookup_lt_Some in Hi. lia.
      * rewrite orb_true_r.
        unfold chosen. cbn [fst snd]. exists (length views).
        split; [rewrite lookup_app_r, Nat.sub_diag by lia; destruct x; reflexivity|].
        split; [exact Ege|].
        intros j tr Hj Hgej.
        destruct (lookup_app_Some views [x] j tr) as [Hcases _].
        destruct (Hcases Hj) as [Hin | [Hlen Hlast]].
        -- rewrite (IH j tr Hin) in Hgej. discriminate.
        -- destruct (j - length views)%nat eqn:Ej; [|destruct n; discriminate].
           injection Hlast as <-.
           split; [apply num_lt_irrefl | lia].
    + unfold chosen. cbn [fst snd].
      destruct bt as [t|].
      * destruct IH as (i & Hi & Hbr & Hall). exists i.
        split; [apply lookup_app_l_Some; exact Hi|].
        split; [exact Hbr|].
        intros j tr Hj Hgej.
        destruct (lookup_app_Some views [x] j tr) as [Hcases _].
        destruct (Hcases Hj) as [Hin | [Hlen Hlast]].
        -- exact (Hall j tr Hin Hgej).
        -- destruct (j - length views)%nat eqn:Ej; [|destruct n; discriminate].
           injection Hlast as <-. rewrite Ege in Hgej. discriminate.
      * intros j tr Hj.
        destruct (lookup_app_Some views [x] j tr) as [Hcases _].
        destruct (Hcases Hj) as [Hin | [Hlen Hlast]].
        -- exact (IH j tr Hin).
        -- destruct (j - length views)%nat eqn:Ej; [|destruct n; discriminate].
           injection Hlast as <-. exact Ege.
Qed.

Lemma enumerate_from_lookup {A} (l : list A) (start i : nat) :
  enumerate_from start l !! i = (fun x => ((start + i)%nat, x)) <$> l !! i.
Proof.
  revert start i. induction l as [|x l IH]; intros start i; [reflexivity|].
  destruct i as [|i]; cbn.
  - rewrite Nat.add_0_r. reflexivity.
  - rewrite IH. replace (S start + i)%nat with (start + S i)%nat by lia.
    reflexivity.
Qed.

Lemma enumerate_zip_lookup (tp_list fn_list : list Z) (i : nat) item :
  enumerate (zip tp_list fn_list) !! i = Some item <->
  exists tp fn,
    tp_list !! i = Some tp /\ fn_list !! i = Some fn /\ item = (i, (tp, fn)).
Proof.
  unfold enumerate. rewrite enumerate_from_lookup. cbn [Nat.add].
  rewrite fmap_Some. split.
  - intros ([tp fn] & Hz & ->).
    apply lookup_zip_with_Some in Hz.
    destruct Hz as (x & y & [= <- <-] & Hx & Hy). eauto.
  - intros (tp & fn & Htp & Hfn & ->). exists (tp, fn).
    split; [|reflexivity].
    apply lookup_zip_with_Some. eauto.
Qed.

Lemma Forall2_computes (items : list (nat * (Z * Z))) :
  Forall (fun item => exists tr, computes item tr /\ finite (snd tr)) items ->
  exists views,
    Forall2 computes items views /\ Forall (fun tr => finite (snd tr)) views.
Proof.
  induction 1 as [|item items (tr & Hc & Hf) _ (views & IH1 & IH2)].
  - exists []. split; constructor.
  - exists (tr :: views). split; constructor; assumption.
Qed.

Lemma recall_of_finite (tp fn : Z) (r : number) :
  recall_of tp fn = Ok r -> finite r.
Proof.
  unfold recall_of. destruct (0 <? tp + fn).
  - destruct (true_div tp (tp + fn)) as [f|e] eqn:E; cbn; [|discriminate].
    intros [= <-]. destruct (true_div_Ok_finite _ _ _ E) as [q ->].
    exists q. reflexivity.
  - intros [= <-]. eexists. reflexivity.
Qed.

(** A scan that returns has computed a threshold and a recall for every
    item. *)
Lemma scan_Ok_computes rt items best res :
  reduce (scan_step rt) items best = Ok res ->
  exists views,
    Forall2 computes items views /\ Forall (fun tr => finite (snd tr)) views.
Proof.
  revert best. induction items as [|item items IH]; intros best.
  - intros _. exists []. split; constructor.
  - cbn [reduce].
    destruct (scan_step rt best item) as [best'|e] eqn:Estep; [|discriminate].
    intros Hrest. destruct (IH _ Hrest) as (views & Hviews & Hfin).
    destruct best as [bt br], item as [i [tp fn]]. unfold scan_step in Estep.
    destruct (threshold_of i) as [t|] eqn:Et; [|discriminate].
    destruct (recall_of tp fn) as [r|] eqn:Er; [|discriminate].
    exists ((t, r) :: views). split.
    + constructor; [split; assumption | exact Hviews].
    + constructor; [exact (recall_of_finite _ _ _ Er) | exact Hfin].
Qed.

Lemma find_best_recall_threshold_Ok tp_list fn_list recall_threshold best :
  length tp_list = 9%nat -> length fn_list = length tp_list ->
  find_best_recall_threshold tp_list fn_list recall_threshold = Ok best ->
  best_threshold_spec tp_list fn_list recall_threshold best.
Proof.
  intros Hlen Hlen'. unfold find_best_recall_threshold.
  rewrite (bool_decide_eq_true_2 _ Hlen), (bool_decide_eq_true_2 _ Hlen').
  cbn [negb orb].
  set (items := enumerate (zip tp_list fn_list)).
  assert (forall i item, items !! i = Some item -> (i < 9)%nat) as Hbound.
  { intros i item Hi. apply enumerate_zip_lookup in Hi.
    destruct Hi as (tp & fn & Hi & _). apply lookup_lt_Some in Hi. lia. }
  destruct (reduce _ items _) as [res|e] eqn:Ered; cbn; [|discriminate].
  intros [= <-].
  destruct (scan_Ok_computes _ _ _ _ Ered) as (views & Hviews & Hfin).
  rewrite (scan_as_select _ _ _ _ Hviews) in Ered. injection Ered as <-.
  pose proof (select_fold_chosen recall_threshold views Hfin) as Hch.
  destruct (fold_left _ views _) as [bt br]. cbn [fst].
  unfold chosen in Hch. cbn [fst snd] in Hch.
  unfold best_threshold_spec. destruct bt as [t|].
  - destruct Hch as (i & Hi & Hge & Hall).
    destruct (Forall2_lookup_r _ _ _ _ _ Hviews Hi) as (item & Hitem & Ht & Hr).
    pose proof (Hbound i item Hitem) as Hi9.
    apply enumerate_zip_lookup in Hitem.
    destruct Hitem as (tp & fn & Hi_tp & Hi_fn & ->).
    cbn [fst snd] in Ht, Hr.
    split.
    { destruct (threshold_of_nth i Hi9) as (t' & Ht' & Hnth).
      rewrite Ht in Ht'. injection Ht' as <-.
      apply list_elem_of_lookup. eauto. }
    exists i, tp, fn, br. repeat (split; [assumption|]).
    intros j tp' fn' r' Hj_tp Hj_fn Hr' Hge'.
    assert (items !! j = Some (j, (tp', fn'))) as Hj
      by (apply enumerate_zip_lookup; eauto).
    destruct (Forall2_lookup_l _ _ _ _ _ Hviews Hj) as (tr & Htr & _ & Hrj).
    cbn [fst snd] in Hrj. rewrite Hr' in Hrj. injection Hrj as ->.
    exact (Hall j tr Htr Hge').
  - intros i tp fn r Hi_tp Hi_fn Hr.
    assert (items !! i = Some (i, (tp, fn))) as Hi
      by (apply enumerate_zip_lookup; eauto).
    destruct (Forall2_lookup_l _ _ _ _ _ Hviews Hi) as (tr & Htr & _ & Hri).
    cbn [fst snd] in Hri. rewrite Hr in Hri. injection Hri as ->.
    exact (Hch i tr Htr).
Qed.

Lemma find_best_recall_threshold_returns tp_list fn_list recall_threshold :
  length tp_list = 9%nat -> length fn_list = length tp_list ->
  Forall (fun tp => 0 <= tp) tp_list -> Forall (fun fn => 0 <= fn) fn_list ->
  exists best,
    find_best_recall_threshold tp_list fn_list recall_threshold = Ok best.
Proof.
  intros Hlen Hlen' Htp Hfn.
  destruct (Forall2_computes (enumerate (zip tp_list fn_list)))
    as (views & Hviews & _).
  { apply Forall_lookup. intros i item Hi.
    apply enumerate_zip_lookup in Hi.
    destruct Hi as (tp & fn & Hi_tp & Hi_fn & ->).
    destruct (threshold_of_nth i) as (t & Ht & _).
    { apply lookup_lt_Some in Hi_tp. lia. }
    destruct (recall_of_Ok tp fn) as (r & Hr & Hf).
    { rewrite Forall_lookup in Htp. exact (Htp i tp Hi_tp). }
    { rewrite Forall_lookup in Hfn. exact (Hfn i fn Hi_fn). }
    exists (t, r). split; [split; assumption | exact Hf]. }
  unfold find_best_recall_threshold.
  rewrite (bool_decide_eq_true_2 _ Hlen), (bool_decide_eq_true_2 _ Hlen').
  cbn [negb orb]. rewrite (scan_as_select _ _ _ _ Hviews). cbn. eauto.
Qed.

Lemma true_div_self (a : Z) : 0 < a -> true_div a a = Ok (Finite 1).
Proof.
  intros Ha. unfold true_div.
  rewrite (proj2 (Z.eqb_neq a 0)) by lia. rewrite Z.abs_eq by lia.
  assert ((Z.sgn a * Z.sgn a <? 0) = false) as -> by (apply Z.ltb_ge; nia).
  unfold binary64_of_ratio. rewrite (proj2 (Z.eqb_neq a 0)) by lia.
  assert (floor_log2_ratio a a = 0) as ->.
  { unfold floor_log2_ratio. rewrite Z.sub_diag. cbn.
    rewrite (proj2 (Z.leb_le (a * 2 ^ 0) a)) by lia. reflexivity. }
  change (Z.max (0 - 52) (-1074)) with (-52).
  change (scaled a a (-52)) with (a * 2 ^ 52, a). cbv beta iota.
  change (0 <=? -52) with false. cbn [andb].
  assert (round_half_even (a * 2 ^ 52) a = 2 ^ 52) as ->.
  { unfold round_half_even.
    rewrite (Z.mul_comm a), Z_mod_mult, Z_div_mult by lia.
    rewrite (proj2 (Z.ltb_lt (2 * 0) a)) by lia. reflexivity. }
  reflexivity.
Qed.

(** The code's recall is the claim's. *)
Lemma recall_of_bucket_recall (tp fn : Z) (r : number) :
  recall_of tp fn = Ok r <-> bucket_recall tp fn r.
Proof.
  unfold recall_of, bucket_recall. destruct (0 <? tp + fn) eqn:E.
  - apply Z.ltb_lt in E. split.
    + destruct (true_div tp (tp + fn)) as [f|e]; cbn; [|discriminate].
      intros [= <-]. left. eauto.
    + intros [(_ & f & -> & ->) | [Hle _]]; [reflexivity | lia].
  - apply Z.ltb_ge in E. split.
    + intros [= <-]. right. auto.
    + intros [[Hlt _] | [_ ->]]; [lia | reflexivity].
Qed.

(** The threshold the code pairs with bucket [i] is the float at place
    [i] of 0.1, ..., 0.9. *)
Lemma best_threshold_spec_claim tp_list fn_list recall_threshold best :
  length tp_list = 9%nat ->
  best_threshold_spec tp_list fn_list recall_threshold best ->
  best_threshold_claim tp_list fn_list recall_threshold best.
Proof.
  intros Hlen. unfold best_threshold_spec, best_threshold_claim.
  destruct best as [threshold|].
  - intros (_ & i & tp & fn & r & Hi_tp & Hi_fn & Ht & Hr & Hge & Hall).
    exists i, tp, fn, r.
    split.
    { destruct (threshold_of_nth i) as (t' & Ht' & Hnth).
      { apply lookup_lt_Some in Hi_tp. lia. }
      rewrite Ht in Ht'. injection Ht' as <-. exact Hnth. }
    split; [exact Hi_tp|]. split; [exact Hi_fn|].
    split; [apply recall_of_bucket_recall; exact Hr|].
    split; [exact Hge|].
    intros j tp' fn' r' Hj_tp Hj_fn Hr' Hge'.
    apply (Hall j tp' fn' r' Hj_tp Hj_fn); [|exact Hge'].
    apply recall_of_bucket_recall. exact Hr'.
  - intros Hnone i tp fn r Hi_tp Hi_fn Hr.
    apply (Hnone i tp fn r Hi_tp Hi_fn).
    apply recall_of_bucket_recall. exact Hr.
Qed.

(** *** How far the float is from the exact quotient *)

Lemma round_half_even_error (n d : Z) :
  0 < d -> - d <= 2 * (round_half_even n d * d - n) <= d.
Proof.
  intros Hd. unfold round_half_even.
  pose proof (Z.div_mod n d ltac:(lia)) as Hdm.
  pose proof (Z.mod_pos_bound n d Hd) as Hmod.
  destruct (2 * (n mod d) <? d) eqn:E1.
  - apply Z.ltb_lt in E1. nia.
  - apply Z.ltb_ge in E1. destruct (d <? 2 * (n mod d)) eqn:E2.
    + apply Z.ltb_lt in E2. nia.
    + apply Z.ltb_ge in E2. destruct (Z.even (n / d)); nia.
Qed.

Lemma floor_log2_ratio_lt (a b : Z) :
  0 < a < b -> floor_log2_ratio a b <= -1.
Proof.
  intros Hab. unfold floor_log2_ratio, scaled.
  assert (Z.log2 a <= Z.log2 b) by (apply Z.log2_le_mono; lia).
  destruct (0 <=? Z.log2 a - Z.log2 b) eqn:E0.
  - apply Z.leb_le in E0.
    replace (Z.log2 a - Z.log2 b) with 0 by lia.
    rewrite (proj2 (Z.leb_gt (b * 2 ^ 0) a)) by lia. lia.
  - apply Z.leb_gt in E0.
    destruct (b <=? a * 2 ^ (- (Z.log2 a - Z.log2 b))); lia.
Qed.

Lemma binary64_of_ratio_close (a b : Z) :
  0 < a < b ->
  exists q, binary64_of_ratio a b = Some q /\
            (- (1 # 18014398509481984) <= q - (a # Z.to_pos b)
             <= 1 # 18014398509481984)%Q.
Proof.
  intros Hab. unfold binary64_of_ratio.
  rewrite (proj2 (Z.eqb_neq a 0)) by lia.
  pose proof (floor_log2_ratio_lt a b Hab) as He.
  set (u := Z.max (floor_log2_ratio a b - 52) (-1074)).
  assert (u <= -53) as Hu by (unfold u; lia).
  unfold scaled. rewrite (proj2 (Z.leb_gt 0 u)) by lia.
  cbn [andb]. eexists. split; [reflexivity|].
  unfold dyadic. rewrite (proj2 (Z.leb_gt 0 u)) by lia.
  assert (2 ^ 53 <= 2 ^ (- u)) as Hpow by (apply Z.pow_le_mono_r; lia).
  pose proof (round_half_even_error (a * 2 ^ (- u)) b ltac:(lia)) as Herr.
  set (P := 2 ^ (- u)) in *. set (m := round_half_even (a * P) b) in *.
  rewrite Qred_correct.
  unfold Qle, Qminus, Qplus, Qopp. cbn [Qnum Qden].
  rewrite Pos2Z.inj_mul, !Z2Pos.id by lia.
  change (2 ^ 53) with 9007199254740992 in Hpow.
  split; nia.
Qed.

(** A quotient of at most one: the float is within [2^-54] of it. *)
Lemma true_div_fraction_close (a b : Z) :
  0 <= a <= b -> 0 < b ->
  exists q, true_div a b = Ok (Finite q) /\
            (- (1 # 18014398509481984) <= q - (a # Z.to_pos b)
             <= 1 # 18014398509481984)%Q.
Proof.
  intros Ha Hb.
  destruct (Z.eq_dec a 0) as [->|Ha0]; [|destruct (Z.eq_dec a b) as [->|Hab]].
  - exists (0 # 1)%Q. split.
    + unfold true_div. rewrite (proj2 (Z.eqb_neq b 0)) by lia. reflexivity.
    + unfold Qle, Qminus, Qplus, Qopp. cbn [Qnum Qden]. split; lia.
  - exists 1%Q. split; [apply true_div_self; exact Hb|].
    unfold Qle, Qminus, Qplus, Qopp. cbn [Qnum Qden].
    rewrite !Z2Pos.id by lia. split; lia.
  - destruct (binary64_of_ratio_close a b ltac:(lia)) as (q & Hq & Hclose).
    exists q. split; [|exact Hclose].
    unfold true_div. rewrite (proj2 (Z.eqb_neq b 0)) by lia.
    rewrite (Z.abs_eq a), (Z.abs_eq b), Hq by lia.
    assert ((Z.sgn a * Z.sgn b <? 0) = false) as -> by (apply Z.ltb_ge; nia).
    reflexivity.
Qed.

(** C9: [find_best_recall_threshold] raises [InvalidDataException] exactly
    when the true-positive list has not nine entries or the two lists
    differ in length.  Otherwise what it returns is [None] when no bucket's
    recall [tp / (tp + fn)] meets the target, and else one of the floats
    0.1, ..., 0.9: the one at the place of the first bucket whose recall
    meets the target and is not below the recall of any other bucket that
    meets it.  On counts that are not negative it does return, and the
    recall of a bucket is a float within [2^-54] of the exact quotient. *)
Theorem find_best_recall_threshold_spec
    (tp_list fn_list : list Z) (recall_threshold : number) :
  (find_best_recall_threshold tp_list fn_list recall_threshold
   = Raise InvalidDataException
   <-> length tp_list <> 9%nat \/ length fn_list <> length tp_list) /\
  (length tp_list = 9%nat -> length fn_list = length tp_list ->
   (forall best,
      find_best_recall_threshold tp_list fn_list recall_threshold = Ok best ->
      best_threshold_claim tp_list fn_list recall_threshold best) /\
   (Forall (fun tp => 0 <= tp) tp_list -> Forall (fun fn => 0 <= fn) fn_list ->
    (exists best,
       find_best_recall_threshold tp_list fn_list recall_threshold = Ok best /\
       best_threshold_claim tp_list fn_list recall_threshold best) /\
    (forall i tp fn,
       tp_list !! i = Some tp -> fn_list !! i = Some fn -> 0 < tp + fn ->
       exists q,
         bucket_recall tp fn (Float (Finite q)) /\
         (- (1 # 18014398509481984) <= q - (tp # Z.to_pos (tp + fn))
          <= 1 # 18014398509481984)%Q))).
Proof.
  split.
  - unfold find_best_recall_threshold. split.
    + destruct (bool_decide (length tp_list = 9%nat)) eqn:E1; cbn [negb orb].
      * destruct (bool_decide (length fn_list = length tp_list)) eqn:E2;
          cbn [negb].
        -- destruct (reduce _ _ _) as [best|e] eqn:Ered; cbn; [discriminate|].
           intros [= ->]. apply reduce_Raise_inv in Ered.
           destruct Ered as (p & x & rest & a' & _ & _ & Hstep).
           apply scan_step_Raise in Hstep. destruct Hstep; discriminate.
        -- intros _. right. apply bool_decide_eq_false in E2. exact E2.
      * intros _. left. apply bool_decide_eq_false in E1. exact E1.
    + intros [H|H].
      * rewrite (bool_decide_eq_false_2 _ H). reflexivity.
      * rewrite (bool_decide_eq_false_2 _ H). rewrite orb_true_r. reflexivity.
  - intros Hlen Hlen'. split.
    + intros best Hbest. apply best_threshold_spec_claim; [exact Hlen|].
      apply find_best_recall_threshold_Ok; assumption.
    + intros Htp Hfn. split.
      * destruct (find_best_recall_threshold_returns tp_list fn_list
                    recall_threshold Hlen Hlen' Htp Hfn) as [best Hbest].
        exists best. split; [exact Hbest|].
        apply best_threshold_spec_claim; [exact Hlen|].
        apply (find_best_recall_threshold_Ok _ _ _ _ Hlen Hlen' Hbest).
      * intros i tp fn Hi_tp Hi_fn Hpos.
        assert (0 <= tp) as Htp0
          by (rewrite Forall_lookup in Htp; exact (Htp i tp Hi_tp)).
        assert (0 <= fn) as Hfn0
          by (rewrite Forall_lookup in Hfn; exact (Hfn i fn Hi_fn)).
        destruct (true_div_fraction_close tp (tp + fn)) as (q & Hq & Hclose);
          [lia | lia |].
        exists q. split; [|exact Hclose].
        left. split; [exact Hpos|]. exists (Finite q). split; [exact Hq | reflexivity].
Qed.

(** The source's test [test_expect_real]: target 0.9, answer 0.4, the
    float at place 3, for the bucket with 70 true positives and 1 false
    negative. *)
Lemma find_best_recall_threshold_spec_witness :
  let tp_list := [100; 95; 90; 70; 60; 50; 40; 30; 20] in
  let fn_list := [4; 3; 2; 1; 2; 4; 5; 6; 7] in
  let target := Float (Finite (8106479329266893 # 9007199254740992)) in
  length tp_list = 9%nat /\ length fn_list = length tp_list /\
  Forall (fun tp => 0 <= tp) tp_list /\ Forall (fun fn => 0 <= fn) fn_list /\
  find_best_recall_threshold tp_list fn_list target
  = Ok (Some (Finite (3602879701896397 # 9007199254740992))) /\
  best_threshold_claim tp_list fn_list target
    (Some (Finite (3602879701896397 # 9007199254740992))) /\
  (exists best,
     find_best_recall_threshold tp_list fn_list target = Ok best /\
     best_threshold_claim tp_list fn_list target best) /\
  exists q,
    bucket_recall 70 1 (Float (Finite q)) /\
    (- (1 # 18014398509481984) <= q - (70 # Z.to_pos (70 + 1))
     <= 1 # 18014398509481984)%Q.
Proof.
  intros tp_list fn_list target.
  assert (Forall (fun tp => 0 <= tp) tp_list) as Htp
    by (repeat constructor; discriminate).
  assert (Forall (fun fn => 0 <= fn) fn_list) as Hfn
    by (repeat constructor; discriminate).
  assert (find_best_recall_threshold tp_list fn_list target
          = Ok (Some (Finite (3602879701896397 # 9007199254740992)))) as Hrun
    by (vm_compute; reflexivity).
  pose proof (proj2 (find_best_recall_threshold_spec tp_list fn_list target)
                eq_refl eq_refl) as [Hspec Hret].
  destruct (Hret Htp Hfn) as [Hreturns Hclose].
  split; [reflexivity|]. split; [reflexivity|].
  split; [exact Htp|]. split; [exact Hfn|].
  split; [exact Hrun|].
  split; [exact (Hspec _ Hrun)|].
  split; [exact Hreturns|].
  exact (Hclose 3%nat 70 1 eq_refl eq_refl eq_refl).
Defined.

(** The other tests of the source. *)
Example test_expect_9 :
  find_best_recall_threshold
    [100; 90; 80; 70; 60; 50; 40; 30; 20] [9; 8; 7; 6; 5; 4; 3; 2; 1]
    (Float (Finite (8106479329266893 # 9007199254740992)))
  = Ok (Some (Finite (8106479329266893 # 9007199254740992))).
Proof. vm_compute. reflexivity. Qed.

Example test_bad_data_sizes :
  find_best_recall_threshold
    [100; 90; 80; 70; 60; 50; 40; 30; 20] [2; 3; 4; 5; 6; 7; 8; 9]
    (Float (Finite (8106479329266893 # 9007199254740992)))
  = Raise InvalidDataException.
Proof. reflexivity. Qed.

Example test_bad_data_length :
  find_best_recall_threshold
    [90; 80; 70; 60; 50; 40; 30; 20] [2; 3; 4; 5; 6; 7; 8; 9]
    (Float (Finite (8106479329266893 # 9007199254740992)))
  = Raise InvalidDataException.
Proof. reflexivity. Qed.

Example test_prefix_zero :
  fst (binary_divide_by_three [0;1;1;1;1] module_world) = Ok 0.
Proof. vm_compute. reflexivity. Qed.

Example test_invalid_non_binary_input :
  fst (binary_divide_by_three [1;2] module_world) = Raise InvalidAlphabetContent.
Proof. vm_compute. reflexivity. Qed.

(** * Further properties of the state machine *)

Lemma reduce_app {A B} (f : A -> B -> result A) (p rest : list B) (a : A) :
  reduce f (p ++ rest) a =
  match reduce f p a with
  | Ok a' => reduce f rest a'
  | Raise e => Raise e
  end.
Proof.
  revert a. induction p as [|x p IH]; intros a; simpl; [reflexivity|].
  destruct (f a x); [apply IH | reflexivity].
Qed.

Lemma transition_not_Q3 (state : string) (letter : Z) :
  state ∉ Q3 -> transition state letter = Raise InvalidState.
Proof.
  intros Hq. unfold transition.
  change (state_check state)
    with (if bool_decide (state ∈ ["S0"; "S1"; "S2"]) then Ok state
          else super_state_check state).
  rewrite bool_decide_eq_false_2 by exact Hq. reflexivity.
Qed.

(** X1: [transition] on the mod-three machine: it returns, and then a state of
    [Q], exactly on a state of [Q] and a letter 0 or 1; a state outside
    [Q] raises [InvalidState] whatever the letter is, since the state is
    checked first; a state of [Q] with another letter raises
    [InvalidAlphabetContent].  The two table lookups never fail. *)
Theorem transition_outcomes (state : string) (letter : Z) :
  (state ∈ Q3 /\ is_bit letter /\
   exists q', transition state letter = Ok q' /\ q' ∈ Q3) \/
  (state ∈ Q3 /\ ~ is_bit letter /\
   transition state letter = Raise InvalidAlphabetContent) \/
  ((state ∉ Q3) /\ transition state letter = Raise InvalidState).
Proof.
  destruct (decide (state ∈ Q3)) as [Hq|Hq].
  - destruct (decide (letter = 0 \/ letter = 1)) as [Hb|Hb].
    + left. split; [exact Hq|]. split; [exact Hb|].
      destruct (Q3_state_of state Hq) as (r & Hr & ->).
      exists (state_of ((2 * r + letter) mod 3)).
      split; [apply transition_state_of; assumption | apply state_of_Q3].
    + right. left. split; [exact Hq|]. split; [exact Hb|].
      apply transition_not_bit; assumption.
  - right. right. split; [exact Hq | apply transition_not_Q3; exact Hq].
Qed.

(** Reading the same bit twice brings the machine back. *)
Lemma transition_twice (r b : Z) :
  0 <= r < 3 -> is_bit b ->
  transition (state_of ((2 * r + b) mod 3)) b = Ok (state_of r).
Proof.
  intros Hr Hb.
  assert (r = 0 \/ r = 1 \/ r = 2) as [->|[->| ->]] by lia;
    destruct Hb as [->| ->]; vm_compute; reflexivity.
Qed.

Lemma reduce_rev_round_trip (s : list Z) (q : string) :
  q ∈ Q3 -> Forall is_bit s ->
  exists q', reduce transition s q = Ok q' /\ q' ∈ Q3 /\
             reduce transition (rev s) q' = Ok q.
Proof.
  intros Hq Hs. revert q Hq.
  induction Hs as [|b s Hb Hs IH]; intros q Hq.
  - exists q. repeat split; [exact Hq].
  - destruct (Q3_state_of q Hq) as (r & Hr & ->).
    destruct (IH (state_of ((2 * r + b) mod 3)) (state_of_Q3 _))
      as (q' & Hfwd & Hq' & Hback).
    exists q'. cbn [reduce rev].
    rewrite transition_state_of by assumption.
    split; [exact Hfwd|]. split; [exact Hq'|].
    rewrite reduce_app, Hback. cbn [reduce].
    rewrite transition_twice by assumption. reflexivity.
Qed.

(** X2: A list of bits followed by its reverse takes the machine from any
    state of [Q] back to that state; so [binary_divide_by_three] returns 0
    on every binary palindrome of even length. *)
Theorem binary_divide_by_three_palindrome (s : list Z) (w : world string) :
  s <> [] -> Forall is_bit s -> class_current_state w = "S0" ->
  (forall q, q ∈ Q3 -> reduce transition (s ++ rev s) q = Ok q) /\
  fst (binary_divide_by_three (s ++ rev s) w) = Ok 0.
Proof.
  intros Hne Hs Hw.
  assert (forall q, q ∈ Q3 -> reduce transition (s ++ rev s) q = Ok q) as Hround.
  { intros q Hq.
    destruct (reduce_rev_round_trip s q Hq Hs) as (q' & Hfwd & _ & Hback).
    rewrite reduce_app, Hfwd. exact Hback. }
  split; [exact Hround|].
  rewrite binary_divide_by_three_unfold by (destruct s; [congruence | discriminate]).
  rewrite Hw, Hround by (apply elem_of_Q3; auto). reflexivity.
Qed.

Lemma binary_divide_by_three_palindrome_witness :
  [1; 0; 1] <> [] /\ Forall is_bit [1; 0; 1] /\
  class_current_state module_world = "S0" /\
  fst (binary_divide_by_three ([1; 0; 1] ++ rev [1; 0; 1]) module_world) = Ok 0.
Proof.
  assert (Forall is_bit [1; 0; 1]) as Hs
    by (repeat constructor; unfold is_bit; auto).
  assert ([1; 0; 1] <> ([] : list Z)) as Hne by discriminate.
  split; [exact Hne|]. split; [exact Hs|]. split; [reflexivity|].
  exact (proj2 (binary_divide_by_three_palindrome [1; 0; 1] module_world
                  Hne Hs eq_refl)).
Defined.

(** X3: Zeros in front of a non-empty list of integers change nothing of what
    [binary_divide_by_three] returns or raises. *)
Theorem binary_divide_by_three_leading_zeros
    (n : nat) (s : list Z) (w : world string) :
  s <> [] -> class_current_state w = "S0" ->
  fst (binary_divide_by_three (repeat 0 n ++ s) w)
  = fst (binary_divide_by_three s w).
Proof.
  intros Hne Hw.
  assert (reduce transition (repeat 0 n ++ s) "S0" = reduce transition s "S0")
    as Hred.
  { induction n as [|n IH]; [reflexivity|].
    cbn [repeat app reduce].
    change "S0" with (state_of 0) at 1.
    rewrite transition_state_of by (unfold is_bit; auto || lia).
    exact IH. }
  rewrite (binary_divide_by_three_unfold (repeat 0 n ++ s))
    by (destruct n, s; cbn; congruence).
  rewrite (binary_divide_by_three_unfold s) by exact Hne.
  rewrite Hw, Hred.
  destruct (reduce transition s "S0"); reflexivity.
Qed.

Lemma binary_divide_by_three_leading_zeros_witness :
  [1; 1; 1; 1] <> [] /\ class_current_state module_world = "S0" /\
  fst (binary_divide_by_three (repeat 0 3 ++ [1; 1; 1; 1]) module_world)
  = fst (binary_divide_by_three [1; 1; 1; 1] module_world).
Proof.
  assert ([1; 1; 1; 1] <> ([] : list Z)) as Hne by discriminate.
  split; [exact Hne|]. split; [reflexivity|].
  exact (binary_divide_by_three_leading_zeros 3 [1; 1; 1; 1] module_world
           Hne eq_refl).
Defined.

Lemma binary_value_from_shift (r : Z) (s : list Z) :
  binary_value_from r s = r * 2 ^ Z.of_nat (length s) + binary_value s.
Proof.
  unfold binary_value, binary_value_from. revert r.
  induction s as [|b s IH]; intros r.
  - cbn. lia.
  - cbn [fold_left length]. rewrite (IH (2 * r + b)), (IH (2 * 0 + b)).
    rewrite Nat2Z.inj_succ, Z.pow_succ_r by lia. ring.
Qed.

(** X4: The remainder of a concatenation from the remainders of its parts:
    for non-empty lists of bits [s1] and [s2] with remainders [r1] and
    [r2], [binary_divide_by_three (s1 ++ s2)] returns
    [(r1 * 2^len(s2) + r2) mod 3]. *)
Theorem binary_divide_by_three_app (s1 s2 : list Z) (w : world string) :
  s1 <> [] -> s2 <> [] -> Forall is_bit s1 -> Forall is_bit s2 ->
  class_current_state w = "S0" ->
  exists r1 r2,
    fst (binary_divide_by_three s1 w) = Ok r1 /\
    fst (binary_divide_by_three s2 w) = Ok r2 /\
    fst (binary_divide_by_three (s1 ++ s2) w)
    = Ok ((r1 * 2 ^ Z.of_nat (length s2) + r2) mod 3).
Proof.
  intros Hne1 Hne2 Hs1 Hs2 Hw.
  exists (binary_value s1 mod 3), (binary_value s2 mod 3).
  rewrite !binary_divide_by_three_bits;
    try assumption; try (apply Forall_app; split; assumption);
    try (destruct s1; [congruence | discriminate]).
  cbn [fst]. repeat split. f_equal.
  assert (binary_value (s1 ++ s2)
          = binary_value s1 * 2 ^ Z.of_nat (length s2) + binary_value s2) as ->.
  { unfold binary_value at 1. unfold binary_value_from.
    rewrite fold_left_app. fold (binary_value_from 0 s1). fold (binary_value s1).
    apply (binary_value_from_shift (binary_value s1) s2). }
  rewrite (Z.add_mod (binary_value s1 * _)), (Z.add_mod (binary_value s1 mod 3 * _))
    by lia.
  rewrite Z.mul_mod_idemp_l, Z.mod_mod by lia. reflexivity.
Qed.

Lemma binary_divide_by_three_app_witness :
  [1; 1; 0] <> [] /\ [1; 0; 1] <> [] /\
  Forall is_bit [1; 1; 0] /\ Forall is_bit [1; 0; 1] /\
  class_current_state module_world = "S0" /\
  exists r1 r2,
    fst (binary_divide_by_three [1; 1; 0] module_world) = Ok r1 /\
    fst (binary_divide_by_three [1; 0; 1] module_world) = Ok r2 /\
    fst (binary_divide_by_three ([1; 1; 0] ++ [1; 0; 1]) module_world)
    = Ok ((r1 * 2 ^ Z.of_nat (length [1; 0; 1]) + r2) mod 3).
Proof.
  assert (Forall is_bit [1; 1; 0]) as H1
    by (repeat constructor; unfold is_bit; auto).
  assert (Forall is_bit [1; 0; 1]) as H2
    by (repeat constructor; unfold is_bit; auto).
  assert ([1; 1; 0] <> ([] : list Z)) as Hne1 by discriminate.
  assert ([1; 0; 1] <> ([] : list Z)) as Hne2 by discriminate.
  split; [exact Hne1|]. split; [exact Hne2|].
  split; [exact H1|]. split; [exact H2|]. split; [reflexivity|].
  exact (binary_divide_by_three_app [1; 1; 0] [1; 0; 1] module_world
           Hne1 Hne2 H1 H2 eq_refl).
Defined.

(** X5: A call leaves the class attribute and every machine that was in the
    store as they were; the store grows by the one machine of the call. *)
Theorem binary_divide_by_three_store (s : list Z) (w : world string) :
  let w' := snd (binary_divide_by_three s w) in
  class_current_state w' = class_current_state w /\
  (forall other, other <> length (heap w) ->
     fst (get_current_state other w') = fst (get_current_state other w)) /\
  (forall i, (i < length (heap w))%nat -> heap w' !! i = heap w !! i) /\
  (length (heap w') <= S (length (heap w)))%nat.
Proof.
  cbv zeta.
  assert (exists v, snd (binary_divide_by_three s w) = w \/
                    snd (binary_divide_by_three s w)
                    = World (class_current_state w) (heap w ++ [v])) as [v Hw'].
  { destruct s as [|b s]; [exists None; left; reflexivity|].
    rewrite binary_divide_by_three_unfold by discriminate.
    destruct (reduce transition (b :: s) (class_current_state w));
      eexists; right; reflexivity. }
  destruct Hw' as [-> | ->].
  - repeat split; auto.
  - cbn [class_current_state heap]. split; [reflexivity|]. split; [|split].
    + intros other Hne. unfold get_current_state.
      cbn [fst class_current_state heap].
      destruct (decide (other < length (heap w))%nat) as [Hlt|Hge].
      * rewrite lookup_app_l by exact Hlt. reflexivity.
      * rewrite !lookup_ge_None_2; [reflexivity | lia |].
        rewrite length_app. cbn. lia.
    + intros i Hi. apply lookup_app_l. exact Hi.
    + rewrite length_app. cbn. lia.
Qed.

(** ** The engine on one machine and on several *)

(** X6: Successive calls chain: after a call on [l1] that returned, a call on
    [l2] with no starting state returns or raises what one call on
    [l1 ++ l2] does, and when it returns the store is the same too. *)
Theorem sequence_transition_chain
    {L S : Type} `{FSM : FiniteStateMachine L S}
    (self : nat) (l1 l2 : list L) (initial_state : option S)
    (w w1 : world S) (q : S) :
  live self w ->
  sequence_transition self l1 initial_state w = (Ok q, w1) ->
  fst (sequence_transition self l2 None w1)
  = fst (sequence_transition self (l1 ++ l2) initial_state w) /\
  forall q2 w2,
    sequence_transition self l2 None w1 = (Ok q2, w2) ->
    sequence_transition self (l1 ++ l2) initial_state w = (Ok q2, w2).
Proof.
  intros Hlive. rewrite !sequence_transition_unfold.
  destruct (reduce transition l1 (starting_state self initial_state w))
    as [q1|e] eqn:H1; [|discriminate].
  intros [= -> <-].
  assert (starting_state self None
            (World (class_current_state w) (<[self := Some q]> (heap w))) = q)
    as Hstart.
  { unfold starting_state. cbn [class_current_state heap].
    rewrite list_lookup_insert_eq by exact Hlive. reflexivity. }
  rewrite Hstart, reduce_app, H1. cbn [class_current_state heap].
  destruct (reduce transition l2 q) as [q2|e2]; cbn [fst].
  - rewrite list_insert_insert_eq.
    split; [reflexivity|]. intros q2' w2 [= <- <-]. reflexivity.
  - split; [reflexivity|]. intros q2' w2 [=].
Qed.

Lemma sequence_transition_chain_witness :
  let w := World "S0" [None] in
  let w1 := World "S0" [Some "S0"] in
  live 0%nat w /\
  sequence_transition 0%nat [1; 1] None w = (Ok "S0", w1) /\
  fst (sequence_transition 0%nat [0; 1] None w1)
  = fst (sequence_transition 0%nat ([1; 1] ++ [0; 1]) None w).
Proof.
  intros w w1.
  assert (live 0%nat w) as Hlive by (unfold live; cbn; lia).
  assert (sequence_transition 0%nat [1; 1] None w = (Ok "S0", w1)) as Hrun
    by (vm_compute; reflexivity).
  split; [exact Hlive|]. split; [exact Hrun|].
  exact (proj1 (sequence_transition_chain 0%nat [1; 1] [0; 1] None w w1 "S0"
                  Hlive Hrun)).
Defined.

(** X7: A call on one machine changes neither the current state of any other
    machine nor the class attribute. *)
Theorem sequence_transition_other_machine
    {L S : Type} `{FSM : FiniteStateMachine L S}
    (self other : nat) (alphabet_sequence : list L) (initial_state : option S)
    (w : world S) :
  self <> other ->
  let w' := snd (sequence_transition self alphabet_sequence initial_state w) in
  fst (get_current_state other w') = fst (get_current_state other w) /\
  class_current_state w' = class_current_state w.
Proof.
  intros Hne. cbv zeta. rewrite sequence_transition_unfold.
  destruct (reduce transition alphabet_sequence _) as [q|e]; cbn [snd].
  - unfold get_current_state. cbn [fst class_current_state heap].
    rewrite list_lookup_insert_ne by exact Hne. split; reflexivity.
  - split; reflexivity.
Qed.

Lemma sequence_transition_other_machine_witness :
  let w := World "S0" [None; Some "S2"] in
  let w' := snd (sequence_transition 0%nat [1] None w) in
  0%nat <> 1%nat /\
  fst (get_current_state 0%nat w') = Ok "S1" /\
  fst (get_current_state 1%nat w') = fst (get_current_state 1%nat w) /\
  class_current_state w' = class_current_state w.
Proof.
  intros w w'.
  assert (0%nat <> 1%nat) as Hne by discriminate.
  split; [exact Hne|]. split; [vm_compute; reflexivity|].
  exact (sequence_transition_other_machine 0%nat 1%nat [1] None w Hne).
Defined.

(** X8: From a supplied state of [Q] that stands for the remainder [r], the
    mod-three machine on a list of [n] bits of value [v] ends in the state
    that stands for [(r * 2^n + v) mod 3]. *)
Theorem sequence_transition_from_state
    (self : nat) (s : list Z) (r : Z) (w : world string) :
  0 <= r < 3 -> Forall is_bit s ->
  fst (sequence_transition self s (Some (state_of r)) w)
  = Ok (state_of ((r * 2 ^ Z.of_nat (length s) + binary_value s) mod 3)).
Proof.
  intros Hr Hs. rewrite sequence_transition_fold.
  assert (starting_state self (Some (state_of r)) w = state_of r) as ->.
  { unfold starting_state.
    assert (r = 0 \/ r = 1 \/ r = 2) as [->|[->| ->]] by lia; reflexivity. }
  rewrite reduce_bits by assumption.
  rewrite binary_value_from_shift. reflexivity.
Qed.

Lemma sequence_transition_from_state_witness :
  0 <= 2 < 3 /\ Forall is_bit [1; 0] /\
  fst (sequence_transition 0%nat [1; 0] (Some (state_of 2)) module_world)
  = Ok (state_of ((2 * 2 ^ Z.of_nat (length [1; 0]) + binary_value [1; 0]) mod 3)).
Proof.
  assert (0 <= 2 < 3) as Hr by lia.
  assert (Forall is_bit [1; 0]) as Hs
    by (repeat constructor; unfold is_bit; auto).
  split; [exact Hr|]. split; [exact Hs|].
  exact (sequence_transition_from_state 0%nat [1; 0] 2 module_world Hr Hs).
Defined.

(** X9: A supplied starting state that is truthy and outside [Q] makes the
    mod-three machine raise [InvalidState] on every non-empty list, also
    when the first letter is no letter of the alphabet; the store stays as
    it was. *)
Theorem sequence_transition_invalid_start
    (self : nat) (x : Z) (rest : list Z) (start : string) (w : world string) :
  start ∉ Q3 -> start <> "" ->
  sequence_transition self (x :: rest) (Some start) w = (Raise InvalidState, w).
Proof.
  intros Hq Hne. rewrite sequence_transition_unfold.
  assert (starting_state self (Some start) w = start) as ->.
  { unfold starting_state.
    change (truthy start) with (negb (bool_decide (start = ""))).
    rewrite bool_decide_eq_false_2 by exact Hne. reflexivity. }
  cbn [reduce]. rewrite transition_not_Q3 by exact Hq. reflexivity.
Qed.

Lemma sequence_transition_invalid_start_witness :
  ("S3" ∉ Q3) /\ "S3" <> "" /\
  sequence_transition 0%nat (7 :: [1]) (Some "S3") module_world
  = (Raise InvalidState, module_world).
Proof.
  assert ("S3" ∉ Q3) as Hq
    by (rewrite elem_of_Q3; intros [H|[H|H]]; discriminate H).
  assert ("S3" <> "") as Hne by discriminate.
  split; [exact Hq|]. split; [exact Hne|].
  exact (sequence_transition_invalid_start 0%nat 7 [1] "S3" module_world Hq Hne).
Defined.

(** * Further properties of [string_digit_list] *)

Lemma digit_value_inj (c1 c2 : ascii) :
  Z.of_N (N_of_ascii c1) - 48 = Z.of_N (N_of_ascii c2) - 48 -> c1 = c2.
Proof.
  intros H. assert (N_of_ascii c1 = N_of_ascii c2) as HN by lia.
  rewrite <- (ascii_N_embedding c1), <- (ascii_N_embedding c2), HN.
  reflexivity.
Qed.

Lemma string_digit_list_cases (digit_string : string) :
  (Forall (fun c => is_decimal_digit c = true) (list_ascii_of_string digit_string) /\
   exists l, string_digit_list digit_string = Ok l) \/
  (Exists (fun c => is_decimal_digit c = false) (list_ascii_of_string digit_string) /\
   string_digit_list digit_string = Raise ValueError).
Proof.
  induction digit_string as [|c rest IH].
  - left. split; [constructor | exists []; reflexivity].
  - cbn [list_ascii_of_string string_digit_list]. unfold int_of_char.
    destruct (is_decimal_digit c) eqn:Hc.
    + destruct IH as [[Hall [l Hl]] | [Hex Hraise]].
      * left. split; [constructor; assumption|].
        rewrite Hl. eexists. reflexivity.
      * right. split; [apply Exists_cons_tl; exact Hex|].
        rewrite Hraise. reflexivity.
    + right. split; [apply Exists_cons_hd; exact Hc | reflexivity].
Qed.

(** X10: [string_digit_list] returns exactly on the strings of decimal
    digits; on a string with any other character it raises [ValueError],
    and it raises nothing else. *)
Theorem string_digit_list_outcomes (digit_string : string) :
  ((Forall (fun c => is_decimal_digit c = true) (list_ascii_of_string digit_string) /\
    exists l, string_digit_list digit_string = Ok l) \/
   (Exists (fun c => is_decimal_digit c = false) (list_ascii_of_string digit_string) /\
    string_digit_list digit_string = Raise ValueError)) /\
  (forall e, string_digit_list digit_string = Raise e -> e = ValueError).
Proof.
  pose proof (string_digit_list_cases digit_string) as Hcases.
  split; [exact Hcases|].
  intros e He. destruct Hcases as [[_ [l Hl]] | [_ Hraise]].
  - rewrite Hl in He. discriminate.
  - rewrite Hraise in He. injection He as <-. reflexivity.
Qed.

Lemma string_digit_list_Ok_inj (t1 t2 : string) (l : list Z) :
  string_digit_list t1 = Ok l -> string_digit_list t2 = Ok l -> t1 = t2.
Proof.
  revert t2 l. induction t1 as [|c1 t1 IH]; intros t2 l.
  - intros [= <-]. destruct t2 as [|c2 t2]; [reflexivity|].
    cbn [string_digit_list]. destruct (int_of_char c2); cbn; [|discriminate].
    destruct (string_digit_list t2); cbn; discriminate.
  - cbn [string_digit_list]. unfold int_of_char at 1.
    destruct (is_decimal_digit c1); cbn; [|discriminate].
    destruct (string_digit_list t1) as [l1|] eqn:H1; cbn; [|discriminate].
    intros [= <-]. destruct t2 as [|c2 t2]; [discriminate|].
    cbn [string_digit_list]. unfold int_of_char at 1.
    destruct (is_decimal_digit c2); cbn; [|discriminate].
    destruct (string_digit_list t2) as [l2|] eqn:H2; cbn; [|discriminate].
    intros [= Hc <-]. f_equal.
    + symmetry. apply digit_value_inj. exact Hc.
    + apply (IH t2 l2); [reflexivity | exact H2].
Qed.

(** X11: on strings made of the decimal digits ['0'..'9'] only,
    [string_digit_list] is injective: two such strings with the same
    result are the same string. *)
Theorem string_digit_list_inj (t1 t2 : string) :
  Forall (fun c => is_decimal_digit c = true) (list_ascii_of_string t1) ->
  Forall (fun c => is_decimal_digit c = true) (list_ascii_of_string t2) ->
  string_digit_list t1 = string_digit_list t2 -> t1 = t2.
Proof.
  intros Hd1 Hd2 Heq.
  pose proof (string_digit_list_digits t2 Hd2) as H2.
  eapply string_digit_list_Ok_inj; [|exact H2].
  rewrite Heq. exact H2.
Qed.

Lemma string_digit_list_inj_witness :
  Forall (fun c => is_decimal_digit c = true) (list_ascii_of_string "0110") /\
  forall t2,
    Forall (fun c => is_decimal_digit c = true) (list_ascii_of_string t2) ->
    string_digit_list "0110" = string_digit_list t2 -> "0110" = t2.
Proof.
  assert (Forall (fun c => is_decimal_digit c = true) (list_ascii_of_string "0110"))
    as Hd by (repeat constructor).
  split; [exact Hd|].
  intros t2 Hd2 Heq. exact (string_digit_list_inj "0110" t2 Hd Hd2 Heq).
Defined.

(** ** [binary_divide_by_three] on [string_digit_list] *)

Lemma binary_divide_by_three_not_bits (s : list Z) (w : world string) :
  Exists (fun b => ~ is_bit b) s -> class_current_state w = "S0" ->
  fst (binary_divide_by_three s w) = Raise InvalidAlphabetContent.
Proof.
  intros Hs Hw.
  rewrite binary_divide_by_three_unfold by (destruct s; [inversion Hs | discriminate]).
  rewrite Hw, reduce_not_bits; [reflexivity | apply elem_of_Q3; auto | exact Hs].
Qed.



(** X13: On a string of decimal digits the composition returns the remainder
    when the string is not empty and holds the digits 0 and 1 only, and
    raises [InvalidAlphabetContent] when it is empty or holds another
    digit. *)
Theorem digit_string_remainder (digit_string : string) (w : world string) :
  Forall (fun c => is_decimal_digit c = true) (list_ascii_of_string digit_string) ->
  class_current_state w = "S0" ->
  exists l,
    string_digit_list digit_string = Ok l /\
    (digit_string <> "" ->
     Forall (fun c => c = "0"%char \/ c = "1"%char)
            (list_ascii_of_string digit_string) ->
     fst ((do l <- lift (string_digit_list digit_string);
           binary_divide_by_three l) w) = Ok (binary_value l mod 3)) /\
    (digit_string = "" \/
     Exists (fun c => c <> "0"%char /\ c <> "1"%char)
            (list_ascii_of_string digit_string) ->
     fst ((do l <- lift (string_digit_list digit_string);
           binary_divide_by_three l) w) = Raise InvalidAlphabetContent).
Proof.
  intros Hd Hw. eexists. split; [apply string_digit_list_digits; exact Hd|].
  unfold bind, lift. rewrite (string_digit_list_digits _ Hd).
  set (value := fun c => Z.of_N (N_of_ascii c) - 48).
  split.
  - intros Hne Hbits.
    rewrite binary_divide_by_three_bits; [reflexivity | | | exact Hw].
    + destruct digit_string; [congruence | discriminate].
    + apply Forall_map. eapply Forall_impl; [exact Hbits|].
      intros c [-> | ->]; [left | right]; reflexivity.
  - intros [-> | Hex]; [reflexivity|].
    apply binary_divide_by_three_not_bits; [|exact Hw].
    apply Exists_exists in Hex. destruct Hex as (c & Hin & Hc0 & Hc1).
    apply Exists_exists. exists (value c).
    split; [apply list_elem_of_In, in_map, list_elem_of_In; exact Hin|].
    intros [H0 | H1].
    + apply Hc0. apply digit_value_inj. exact H0.
    + apply Hc1. apply digit_value_inj. exact H1.
Qed.

Lemma digit_string_remainder_witness :
  Forall (fun c => is_decimal_digit c = true) (list_ascii_of_string "1021") /\
  class_current_state module_world = "S0" /\
  Exists (fun c => c <> "0"%char /\ c <> "1"%char) (list_ascii_of_string "1021") /\
  fst ((do l <- lift (string_digit_list "1021"); binary_divide_by_three l)
         module_world) = Raise InvalidAlphabetContent.
Proof.
  assert (Forall (fun c => is_decimal_digit c = true) (list_ascii_of_string "1021"))
    as Hd by (repeat constructor).
  assert (Exists (fun c => c <> "0"%char /\ c <> "1"%char)
                 (list_ascii_of_string "1021")) as Hex.
  { cbn. do 2 apply Exists_cons_tl. apply Exists_cons_hd.
    split; discriminate. }
  split; [exact Hd|]. split; [reflexivity|]. split; [exact Hex|].
  destruct (digit_string_remainder "1021" module_world Hd eq_refl)
    as (l & _ & _ & Hraise).
  exact (Hraise (or_intror Hex)).
Defined.

(** * Further properties of [find_best_recall_threshold] *)

Lemma find_best_recall_threshold_lengths tp_list fn_list recall_threshold best :
  find_best_recall_threshold tp_list fn_list recall_threshold = Ok best ->
  length tp_list = 9%nat /\ length fn_list = length tp_list.
Proof.
  unfold find_best_recall_threshold.
  destruct (bool_decide (length tp_list = 9%nat)) eqn:E1; [|discriminate].
  destruct (bool_decide (length fn_list = length tp_list)) eqn:E2; [|discriminate].
  intros _. split; eapply bool_decide_eq_true_1; eassumption.
Qed.

Lemma true_div_Raise_cases (a b : Z) (e : exn) :
  true_div a b = Raise e ->
  (b = 0 /\ e = ZeroDivisionError) \/ (b <> 0 /\ e = OverflowError).
Proof.
  unfold true_div. destruct (b =? 0) eqn:Eb.
  - intros [= <-]. left. split; [apply Z.eqb_eq; exact Eb | reflexivity].
  - destruct (binary64_of_ratio _ _); [discriminate|].
    intros [= <-]. right. split; [apply Z.eqb_neq; exact Eb | reflexivity].
Qed.

Lemma scan_step_Raise_overflow rt best item (e : exn) :
  scan_step rt best item = Raise e -> e = OverflowError.
Proof.
  destruct best as [bt br], item as [i [tp fn]]. unfold scan_step.
  destruct (threshold_of i) as [t|e1] eqn:Et; cbn.
  - unfold recall_of. destruct (0 <? tp + fn) eqn:Epos; cbn.
    + destruct (true_div tp (tp + fn)) as [r|e2] eqn:Er; cbn.
      * destruct (_ && _); discriminate.
      * intros [= <-]. apply Z.ltb_lt in Epos.
        destruct (true_div_Raise_cases _ _ _ Er) as [[Hz _] | [_ He]];
          [lia | exact He].
    + destruct (_ && _); discriminate.
  - intros [= <-].
    destruct (true_div_Raise_cases _ _ _ Et) as [[Hz _] | [_ He]];
      [discriminate | exact He].
Qed.

(** X14: The exceptions of [find_best_recall_threshold], on any lists of
    integers and any target: [InvalidDataException] for the lengths, and
    [OverflowError] from a division, which needs a negative count.  The
    division by zero that the guard on [tp + fn] is there to avoid does
    not happen. *)
Theorem find_best_recall_threshold_exceptions
    (tp_list fn_list : list Z) (recall_threshold : number) (e : exn) :
  find_best_recall_threshold tp_list fn_list recall_threshold = Raise e ->
  (e = InvalidDataException /\
   (length tp_list <> 9%nat \/ length fn_list <> length tp_list)) \/
  (e = OverflowError /\
   length tp_list = 9%nat /\ length fn_list = length tp_list /\
   ~ (Forall (fun tp => 0 <= tp) tp_list /\ Forall (fun fn => 0 <= fn) fn_list)).
Proof.
  intros Hraise.
  destruct (decide (length tp_list = 9%nat)) as [Hlen|Hlen].
  - destruct (decide (length fn_list = length tp_list)) as [Hlen'|Hlen'].
    + right. split; [|split; [exact Hlen | split; [exact Hlen'|]]].
      * unfold find_best_recall_threshold in Hraise.
        rewrite (bool_decide_eq_true_2 _ Hlen), (bool_decide_eq_true_2 _ Hlen')
          in Hraise.
        cbn [negb orb] in Hraise.
        destruct (reduce _ _ _) as [best|e'] eqn:Ered; [discriminate|].
        cbn in Hraise. injection Hraise as <-.
        apply reduce_Raise_inv in Ered.
        destruct Ered as (p & x & rest & a' & _ & _ & Hstep).
        exact (scan_step_Raise_overflow _ _ _ _ Hstep).
      * intros [Htp Hfn].
        destruct (find_best_recall_threshold_returns tp_list fn_list
                    recall_threshold Hlen Hlen' Htp Hfn) as [best Hbest].
        congruence.
    + left. unfold find_best_recall_threshold in Hraise.
      rewrite (bool_decide_eq_false_2 _ Hlen'), orb_true_r in Hraise.
      injection Hraise as <-. auto.
  - left. unfold find_best_recall_threshold in Hraise.
    rewrite (bool_decide_eq_false_2 _ Hlen) in Hraise.
    injection Hraise as <-. auto.
Qed.

Lemma find_best_recall_threshold_exceptions_witness :
  let tp_list := [- 10 ^ 400; 0; 0; 0; 0; 0; 0; 0; 0] in
  let fn_list := [10 ^ 400 + 1; 0; 0; 0; 0; 0; 0; 0; 0] in
  find_best_recall_threshold tp_list fn_list (Int 0) = Raise OverflowError /\
  ~ (Forall (fun tp => 0 <= tp) tp_list /\ Forall (fun fn => 0 <= fn) fn_list).
Proof.
  intros tp_list fn_list.
  assert (find_best_recall_threshold tp_list fn_list (Int 0) = Raise OverflowError)
    as Hrun by (vm_compute; reflexivity).
  split; [exact Hrun|].
  destruct (find_best_recall_threshold_exceptions tp_list fn_list (Int 0)
              OverflowError Hrun) as [[He _] | (_ & _ & _ & Hneg)];
    [discriminate He | exact Hneg].
Defined.

(** ** Recall lies between 0 and 1 *)

Lemma round_half_even_bounds (n d K : Z) :
  0 < d -> 0 <= n <= K * d -> 0 <= round_half_even n d <= K.
Proof.
  intros Hd Hn. unfold round_half_even.
  pose proof (Z.div_mod n d ltac:(lia)) as Hdm.
  pose proof (Z.mod_pos_bound n d Hd) as Hmod.
  assert (0 <= n / d) as Hq0 by (apply Z.div_pos; lia).
  assert (n / d <= K) as HqK by (apply Z.div_le_upper_bound; lia).
  assert (n / d = K -> n mod d = 0) as Hfull by nia.
  destruct (2 * (n mod d) <? d) eqn:E1; [lia|].
  apply Z.ltb_ge in E1.
  assert (n / d < K) as Hlt.
  { destruct (Z.eq_dec (n / d) K) as [HK|HK]; [|lia].
    specialize (Hfull HK). lia. }
  destruct (d <? 2 * (n mod d)); [lia|].
  destruct (Z.even (n / d)); lia.
Qed.

Lemma binary64_of_ratio_fraction (a b : Z) :
  0 <= a <= b -> 0 < b ->
  exists q, binary64_of_ratio a b = Some q /\ (0 <= q <= 1)%Q.
Proof.
  intros Ha Hb. unfold binary64_of_ratio.
  destruct (a =? 0) eqn:Ea.
  { exists (0 # 1)%Q. split; [reflexivity|]. split; discriminate. }
  apply Z.eqb_neq in Ea.
  pose proof (floor_log2_ratio_le a b ltac:(lia)) as He.
  set (u := Z.max (floor_log2_ratio a b - 52) (-1074)).
  assert (u < 0) as Hu by (unfold u; lia).
  unfold scaled. rewrite (proj2 (Z.leb_gt 0 u)) by exact Hu.
  cbn [andb]. eexists. split; [reflexivity|].
  unfold dyadic. rewrite (proj2 (Z.leb_gt 0 u)) by exact Hu.
  assert (0 < 2 ^ (- u)) as Hpow by (apply Z.pow_pos_nonneg; lia).
  pose proof (round_half_even_bounds (a * 2 ^ (- u)) b (2 ^ (- u)) Hb
                ltac:(nia)) as Hm.
  rewrite Qred_correct. unfold Qle. cbn [Qnum Qden].
  rewrite Z2Pos.id by exact Hpow. lia.
Qed.

Lemma recall_of_unit_interval (tp fn : Z) :
  0 <= tp -> 0 <= fn ->
  exists r,
    recall_of tp fn = Ok r /\
    num_ge r (Int 0) = true /\ num_ge (Int 1) r = true.
Proof.
  intros Htp Hfn. unfold recall_of.
  destruct (0 <? tp + fn) eqn:E.
  - apply Z.ltb_lt in E.
    destruct (binary64_of_ratio_fraction tp (tp + fn)) as (q & Hq & Hq0 & Hq1);
      [lia | lia |].
    unfold true_div. rewrite (proj2 (Z.eqb_neq (tp + fn) 0)) by lia.
    rewrite (Z.abs_eq tp), (Z.abs_eq (tp + fn)), Hq by lia.
    assert ((Z.sgn tp * Z.sgn (tp + fn) <? 0) = false) as ->
      by (apply Z.ltb_ge; nia).
    cbn. eexists. split; [reflexivity|].
    unfold num_ge, float_le, number_value.
    split; apply Qle_bool_iff; assumption.
  - eexists. split; [reflexivity|]. split; reflexivity.
Qed.

(** X15: On counts that are not negative the recall is a number between 0 and
    1, the bounds included: rounding the quotient to a float does not take
    it above 1. *)
Theorem recall_of_bounds (tp fn : Z) :
  0 <= tp -> 0 <= fn ->
  exists r,
    recall_of tp fn = Ok r /\ finite r /\
    num_ge r (Int 0) = true /\ num_ge (Int 1) r = true.
Proof.
  intros Htp Hfn.
  destruct (recall_of_unit_interval tp fn Htp Hfn) as (r & Hr & H0 & H1).
  exists r. split; [exact Hr|].
  split; [exact (recall_of_finite _ _ _ Hr)|].
  split; assumption.
Qed.

Lemma recall_of_bounds_witness :
  0 <= 100 /\ 0 <= 4 /\
  exists r,
    recall_of 100 4 = Ok r /\ finite r /\
    num_ge r (Int 0) = true /\ num_ge (Int 1) r = true.
Proof.
  assert (0 <= 100) as H1 by discriminate.
  assert (0 <= 4) as H2 by discriminate.
  split; [exact H1|]. split; [exact H2|].
  exact (recall_of_bounds 100 4 H1 H2).
Defined.

(** ** The target *)

Lemma float_le_trans (x y z : float64) :
  float_le x y = true -> float_le y z = true -> float_le x z = true.
Proof.
  destruct x as [a|[|]|], y as [b|[|]|], z as [c|[|]|]; cbn;
    try reflexivity; try discriminate.
  rewrite !Qle_bool_iff. apply Qle_trans.
Qed.

Lemma float_le_lt_false (r one t : float64) :
  float_le r one = true -> float_lt one t = true -> float_le t r = false.
Proof.
  destruct r as [a|[|]|], one as [b|[|]|], t as [c|[|]|]; cbn;
    try reflexivity; try discriminate.
  rewrite Qle_bool_iff, Qltb_lt. intros Hab Hbc.
  apply not_true_iff_false. rewrite Qle_bool_iff. intros Hca.
  exact (Qlt_not_le _ _ Hbc (Qle_trans _ _ _ Hca Hab)).
Qed.

(** [x <= y] and [t <= x] give [t <= y], for finite [x] and [y]. *)
Lemma num_ge_mono (x y t : number) :
  finite x -> finite y ->
  num_lt y x = false -> num_ge x t = true -> num_ge y t = true.
Proof.
  intros [qx Hx] [qy Hy] Hyx. unfold num_ge.
  apply not_true_iff_false in Hyx. rewrite (num_lt_finite _ _ _ _ Hy Hx) in Hyx.
  apply Qnot_lt_le in Hyx. rewrite Hx, Hy.
  destruct (number_value t) as [qt|[|]|]; cbn; try reflexivity; try discriminate.
  rewrite !Qle_bool_iff. intros Htx. exact (Qle_trans _ _ _ Htx Hyx).
Qed.

(** The threshold returned does not depend on the target. *)
Lemma best_threshold_spec_unique tp_list fn_list rt1 rt2 a b :
  best_threshold_spec tp_list fn_list rt1 (Some a) ->
  best_threshold_spec tp_list fn_list rt2 (Some b) ->
  a = b.
Proof.
  intros (_ & i1 & tp1 & fn1 & r1 & Htp1 & Hfn1 & Ht1 & Hr1 & Hge1 & Hall1)
         (_ & i2 & tp2 & fn2 & r2 & Htp2 & Hfn2 & Ht2 & Hr2 & Hge2 & Hall2).
  pose proof (recall_of_finite _ _ _ Hr1) as Hf1.
  pose proof (recall_of_finite _ _ _ Hr2) as Hf2.
  assert (i1 = i2) as Hi.
  { destruct (num_lt r2 r1) eqn:E21.
    - (* r2 < r1: r1 meets the second target and beats r2 *)
      pose proof (num_ge_mono r2 r1 rt2 Hf2 Hf1 (num_lt_asym _ _ E21) Hge2)
        as Hr1_rt2.
      destruct (Hall2 i1 tp1 fn1 r1 Htp1 Hfn1 Hr1 Hr1_rt2) as [Hno _].
      congruence.
    - (* r1 <= r2 *)
      pose proof (num_ge_mono r1 r2 rt1 Hf1 Hf2 E21 Hge1) as Hr2_rt1.
      destruct (Hall1 i2 tp2 fn2 r2 Htp2 Hfn2 Hr2 Hr2_rt1) as [E12 Hlt1].
      pose proof (num_ge_mono r2 r1 rt2 Hf2 Hf1 E12 Hge2) as Hr1_rt2.
      destruct (Hall2 i1 tp1 fn1 r1 Htp1 Hfn1 Hr1 Hr1_rt2) as [_ Hlt2].
      destruct (Nat.lt_trichotomy i1 i2) as [Hlt|[Heq|Hgt]]; [|exact Heq|].
      + specialize (Hlt2 Hlt). congruence.
      + specialize (Hlt1 Hgt). congruence. }
  subst i2. rewrite Ht1 in Ht2. injection Ht2 as ->. reflexivity.
Qed.

(** Whether the scan returns does not depend on the target. *)
Lemma find_best_recall_threshold_any_target tp_list fn_list rt1 rt2 best :
  find_best_recall_threshold tp_list fn_list rt1 = Ok best ->
  exists best', find_best_recall_threshold tp_list fn_list rt2 = Ok best'.
Proof.
  unfold find_best_recall_threshold.
  destruct (negb _ || negb _); [discriminate|].
  destruct (reduce (scan_step rt1) _ _) as [res|] eqn:Ered; [|discriminate].
  intros _. destruct (scan_Ok_computes _ _ _ _ Ered) as (views & Hviews & _).
  rewrite (scan_as_select _ _ _ _ Hviews). cbn. eauto.
Qed.

(** X16: Two targets for which a threshold is returned get the same threshold:
    the target decides between [None] and the answer, not which answer. *)
Theorem find_best_recall_threshold_same_answer
    (tp_list fn_list : list Z) (rt1 rt2 : number) (a b : float64) :
  find_best_recall_threshold tp_list fn_list rt1 = Ok (Some a) ->
  find_best_recall_threshold tp_list fn_list rt2 = Ok (Some b) ->
  a = b.
Proof.
  intros H1 H2.
  destruct (find_best_recall_threshold_lengths _ _ _ _ H1) as [Hlen Hlen'].
  apply (best_threshold_spec_unique tp_list fn_list rt1 rt2);
    apply find_best_recall_threshold_Ok; assumption.
Qed.

Lemma find_best_recall_threshold_same_answer_witness :
  let tp_list := [100; 95; 90; 70; 60; 50; 40; 30; 20] in
  let fn_list := [4; 3; 2; 1; 2; 4; 5; 6; 7] in
  let a := Finite (3602879701896397 # 9007199254740992) in
  find_best_recall_threshold tp_list fn_list
    (Float (Finite (8106479329266893 # 9007199254740992))) = Ok (Some a) /\
  forall b, find_best_recall_threshold tp_list fn_list (Int 0) = Ok (Some b) ->
            a = b.
Proof.
  intros tp_list fn_list a.
  assert (find_best_recall_threshold tp_list fn_list
            (Float (Finite (8106479329266893 # 9007199254740992))) = Ok (Some a))
    as H1 by (vm_compute; reflexivity).
  split; [exact H1|].
  intros b H2.
  exact (find_best_recall_threshold_same_answer tp_list fn_list _ _ a b H1 H2).
Defined.

(** X17: Lowering the target keeps the answer: when a threshold is returned for
    a target, the same threshold is returned for every target that is not
    above it. *)
Theorem find_best_recall_threshold_lower_target
    (tp_list fn_list : list Z) (rt1 rt2 : number) (a : float64) :
  find_best_recall_threshold tp_list fn_list rt1 = Ok (Some a) ->
  num_ge rt1 rt2 = true ->
  find_best_recall_threshold tp_list fn_list rt2 = Ok (Some a).
Proof.
  intros H1 Hle.
  destruct (find_best_recall_threshold_lengths _ _ _ _ H1) as [Hlen Hlen'].
  destruct (find_best_recall_threshold_any_target _ _ _ rt2 _ H1) as [best' H2].
  pose proof (find_best_recall_threshold_Ok _ _ _ _ Hlen Hlen' H1) as Hs1.
  pose proof (find_best_recall_threshold_Ok _ _ _ _ Hlen Hlen' H2) as Hs2.
  rewrite H2. destruct best' as [b|].
  - rewrite (best_threshold_spec_unique _ _ _ _ _ _ Hs1 Hs2). reflexivity.
  - exfalso.
    destruct Hs1 as (_ & i & tp & fn & r & Htp & Hfn & _ & Hr & Hge & _).
    pose proof (Hs2 i tp fn r Htp Hfn Hr) as Hno.
    unfold num_ge in *.
    rewrite (float_le_trans _ _ _ Hle Hge) in Hno. discriminate.
Qed.

Lemma find_best_recall_threshold_lower_target_witness :
  let tp_list := [100; 95; 90; 70; 60; 50; 40; 30; 20] in
  let fn_list := [4; 3; 2; 1; 2; 4; 5; 6; 7] in
  let a := Finite (3602879701896397 # 9007199254740992) in
  let rt1 := Float (Finite (8106479329266893 # 9007199254740992)) in
  let rt2 := Float (Finite (1 # 2)) in
  find_best_recall_threshold tp_list fn_list rt1 = Ok (Some a) /\
  num_ge rt1 rt2 = true /\
  find_best_recall_threshold tp_list fn_list rt2 = Ok (Some a).
Proof.
  intros tp_list fn_list a rt1 rt2.
  assert (find_best_recall_threshold tp_list fn_list rt1 = Ok (Some a)) as H1
    by (vm_compute; reflexivity).
  assert (num_ge rt1 rt2 = true) as Hle by reflexivity.
  split; [exact H1|]. split; [exact Hle|].
  exact (find_best_recall_threshold_lower_target tp_list fn_list rt1 rt2 a H1 Hle).
Defined.

(** X18: A target above 1 cannot be met: on counts that are not negative the
    answer is [None]. *)
Theorem find_best_recall_threshold_target_above_one
    (tp_list fn_list : list Z) (recall_threshold : number) :
  length tp_list = 9%nat -> length fn_list = length tp_list ->
  Forall (fun tp => 0 <= tp) tp_list -> Forall (fun fn => 0 <= fn) fn_list ->
  num_lt (Int 1) recall_threshold = true ->
  find_best_recall_threshold tp_list fn_list recall_threshold = Ok None.
Proof.
  intros Hlen Hlen' Htp Hfn Habove.
  destruct (find_best_recall_threshold_returns _ _ recall_threshold
              Hlen Hlen' Htp Hfn) as [best Hbest].
  pose proof (find_best_recall_threshold_Ok _ _ _ _ Hlen Hlen' Hbest) as Hspec.
  rewrite Hbest. destruct best as [t|]; [exfalso | reflexivity].
  destruct Hspec as (_ & i & tp & fn & r & Hi_tp & Hi_fn & _ & Hr & Hge & _).
  destruct (recall_of_unit_interval tp fn) as (r' & Hr' & _ & Hle1).
  { rewrite Forall_lookup in Htp. exact (Htp i tp Hi_tp). }
  { rewrite Forall_lookup in Hfn. exact (Hfn i fn Hi_fn). }
  rewrite Hr in Hr'. injection Hr' as <-.
  unfold num_ge, num_lt in *.
  rewrite (float_le_lt_false _ _ _ Hle1 Habove) in Hge. discriminate.
Qed.

Lemma find_best_recall_threshold_target_above_one_witness :
  let tp_list := [100; 95; 90; 70; 60; 50; 40; 30; 20] in
  let fn_list := [0; 3; 2; 1; 2; 4; 5; 6; 7] in
  let target := Float (Finite (11 # 10)) in
  length tp_list = 9%nat /\ length fn_list = length tp_list /\
  Forall (fun tp => 0 <= tp) tp_list /\ Forall (fun fn => 0 <= fn) fn_list /\
  num_lt (Int 1) target = true /\
  find_best_recall_threshold tp_list fn_list target = Ok None.
Proof.
  intros tp_list fn_list target.
  assert (Forall (fun tp => 0 <= tp) tp_list) as Htp
    by (repeat constructor; discriminate).
  assert (Forall (fun fn => 0 <= fn) fn_list) as Hfn
    by (repeat constructor; discriminate).
  split; [reflexivity|]. split; [reflexivity|].
  split; [exact Htp|]. split; [exact Hfn|]. split; [reflexivity|].
  exact (find_best_recall_threshold_target_above_one tp_list fn_list target
           eq_refl eq_refl Htp Hfn eq_refl).
Defined.

(** X19: A target of 0 or less is met by every entry: on counts that are not
    negative a threshold is returned, also when every count is 0. *)
Theorem find_best_recall_threshold_target_at_most_zero
    (tp_list fn_list : list Z) (recall_threshold : number) :
  length tp_list = 9%nat -> length fn_list = length tp_list ->
  Forall (fun tp => 0 <= tp) tp_list -> Forall (fun fn => 0 <= fn) fn_list ->
  num_ge (Int 0) recall_threshold = true ->
  exists t,
    find_best_recall_threshold tp_list fn_list recall_threshold = Ok (Some t).
Proof.
  intros Hlen Hlen' Htp Hfn Hbelow.
  destruct (find_best_recall_threshold_returns _ _ recall_threshold
              Hlen Hlen' Htp Hfn) as [best Hbest].
  pose proof (find_best_recall_threshold_Ok _ _ _ _ Hlen Hlen' Hbest) as Hspec.
  rewrite Hbest. destruct best as [t|]; [eauto | exfalso].
  destruct (lookup_lt_is_Some_2 tp_list 0%nat ltac:(lia)) as [tp Hi_tp].
  destruct (lookup_lt_is_Some_2 fn_list 0%nat ltac:(lia)) as [fn Hi_fn].
  destruct (recall_of_unit_interval tp fn) as (r & Hr & Hge0 & _).
  { rewrite Forall_lookup in Htp. exact (Htp _ tp Hi_tp). }
  { rewrite Forall_lookup in Hfn. exact (Hfn _ fn Hi_fn). }
  pose proof (Hspec 0%nat tp fn r Hi_tp Hi_fn Hr) as Hno.
  unfold num_ge in *.
  rewrite (float_le_trans _ _ _ Hbelow Hge0) in Hno. discriminate.
Qed.

Lemma find_best_recall_threshold_target_at_most_zero_witness :
  let zeros := [0; 0; 0; 0; 0; 0; 0; 0; 0] in
  length zeros = 9%nat /\ length zeros = length zeros /\
  Forall (fun tp => 0 <= tp) zeros /\ Forall (fun fn => 0 <= fn) zeros /\
  num_ge (Int 0) (Float (Finite 0)) = true /\
  exists t, find_best_recall_threshold zeros zeros (Float (Finite 0)) = Ok (Some t).
Proof.
  intros zeros.
  assert (Forall (fun z => 0 <= z) zeros) as Hz
    by (repeat constructor; discriminate).
  split; [reflexivity|]. split; [reflexivity|].
  split; [exact Hz|]. split; [exact Hz|]. split; [reflexivity|].
  exact (find_best_recall_threshold_target_at_most_zero zeros zeros
           (Float (Finite 0)) eq_refl eq_refl Hz Hz eq_refl).
Defined.

(** ** A bucket with no false negatives *)

(** X20: The recall of a bucket with true positives and no false negatives is
    the float 1.0 exactly, and that of a bucket with false negatives and
    no true positive is 0.0; so with counts that are not negative and a
    target of at most 1, one bucket without false negatives is enough for
    a threshold to be returned. *)
Theorem recall_of_no_false_negative
    (tp_list fn_list : list Z) (recall_threshold : number) (i : nat) (tp : Z) :
  length tp_list = 9%nat -> length fn_list = length tp_list ->
  Forall (fun tp => 0 <= tp) tp_list -> Forall (fun fn => 0 <= fn) fn_list ->
  tp_list !! i = Some tp -> fn_list !! i = Some 0 -> 0 < tp ->
  num_ge (Int 1) recall_threshold = true ->
  recall_of tp 0 = Ok (Float (Finite 1)) /\
  (forall fn, 0 < fn -> recall_of 0 fn = Ok (Float (Finite 0))) /\
  exists t,
    find_best_recall_threshold tp_list fn_list recall_threshold = Ok (Some t).
Proof.
  intros Hlen Hlen' Htp Hfn Hi_tp Hi_fn Hpos Htarget.
  assert (recall_of tp 0 = Ok (Float (Finite 1))) as Hone.
  { unfold recall_of. rewrite Z.add_0_r.
    rewrite (proj2 (Z.ltb_lt 0 tp)) by exact Hpos.
    rewrite true_div_self by exact Hpos. reflexivity. }
  split; [exact Hone|]. split.
  - intros fn Hfnpos. unfold recall_of. rewrite Z.add_0_l.
    rewrite (proj2 (Z.ltb_lt 0 fn)) by exact Hfnpos.
    unfold true_div. rewrite (proj2 (Z.eqb_neq fn 0)) by lia. reflexivity.
  - destruct (find_best_recall_threshold_returns _ _ recall_threshold
                Hlen Hlen' Htp Hfn) as [best Hbest].
    pose proof (find_best_recall_threshold_Ok _ _ _ _ Hlen Hlen' Hbest) as Hspec.
    rewrite Hbest. destruct best as [t|]; [eauto | exfalso].
    pose proof (Hspec i tp 0 _ Hi_tp Hi_fn Hone) as Hno.
    unfold num_ge in *. cbn [number_value] in *.
    change (Finite (inject_Z 1)) with (Finite 1) in Htarget.
    congruence.
Qed.

Lemma recall_of_no_false_negative_witness :
  let tp_list := [5; 0; 0; 0; 0; 0; 0; 0; 0] in
  let fn_list := [0; 9; 9; 9; 9; 9; 9; 9; 9] in
  let target := Float (Finite 1) in
  length tp_list = 9%nat /\ length fn_list = length tp_list /\
  Forall (fun tp => 0 <= tp) tp_list /\ Forall (fun fn => 0 <= fn) fn_list /\
  tp_list !! 0%nat = Some 5 /\ fn_list !! 0%nat = Some 0 /\ 0 < 5 /\
  num_ge (Int 1) target = true /\
  recall_of 5 0 = Ok (Float (Finite 1)) /\
  exists t, find_best_recall_threshold tp_list fn_list target = Ok (Some t).
Proof.
  intros tp_list fn_list target.
  assert (Forall (fun tp => 0 <= tp) tp_list) as Htp
    by (repeat constructor; discriminate).
  assert (Forall (fun fn => 0 <= fn) fn_list) as Hfn
    by (repeat constructor; discriminate).
  assert (0 < 5) as Hpos by reflexivity.
  split; [reflexivity|]. split; [reflexivity|].
  split; [exact Htp|]. split; [exact Hfn|].
  split; [reflexivity|]. split; [reflexivity|]. split; [exact Hpos|].
  split; [reflexivity|].
  destruct (recall_of_no_false_negative tp_list fn_list target 0%nat 5
              eq_refl eq_refl Htp Hfn eq_refl eq_refl Hpos eq_refl)
    as (Hone & _ & Hret).
  split; [exact Hone | exact Hret].
Defined.
